(** * Fusion Finance dashboard: the data pipeline of [app.py]

    The script loads one spreadsheet into a pandas frame, resolves the region
    and the delinquency-bucket column by a substring scan of the headers,
    narrows the frame by three sidebar selections, and shows eight totals and
    two grouped sums.  This development embeds that pipeline: a frame is a list
    of column labels and a list of indexed rows, a cell is text, a number or
    empty, and every Python exception the script can meet is a value of [exn].

    Idealisations, stated once:
    - a Python [str] is a [string] of 8-bit characters; [lower] and [strip]
      act on the ASCII letters and the ASCII white space;
    - the number in a cell is an exact rational ([Q]);
    - [series_sum], [py_int], [py_round], and with them [total], [crore] and
      the grouped sums, compute in exact arithmetic.  The program computes in
      64-bit integers and floats, so these agree with it only where that
      arithmetic is exact (the empty sum, a few small integers).  What is
      proved of every table about a sum is proved of [crore_lib], where the
      sum, the division and the rounding of the number library are
      parameters;
    - the two library routines that read a number out of a text cell and that
      print a number as text are parameters of the development. *)

From Stdlib Require Import String Ascii List Bool Arith ZArith QArith Lia Permutation.
From Stdlib Require Import Sorted.
Import ListNotations.
Local Open Scope string_scope.
Local Open Scope list_scope.

(** ** Python strings *)

Module Str.

(** [c.lower()] on one character: the letters A..Z move to a..z. *)
Definition lower_char (c : ascii) : ascii :=
  let n := nat_of_ascii c in
  if (65 <=? n)%nat && (n <=? 90)%nat then ascii_of_nat (n + 32) else c.

Fixpoint lower (s : string) : string :=
  match s with
  | EmptyString => EmptyString
  | String c s' => String (lower_char c) (lower s')
  end.

(** The characters [str.strip()] removes: tab, line feed, vertical tab, form
    feed, carriage return, the four separators 28..31 and the space. *)
Definition is_space (c : ascii) : bool :=
  let n := nat_of_ascii c in
  ((9 <=? n)%nat && (n <=? 13)%nat) || ((28 <=? n)%nat && (n <=? 32)%nat).

Fixpoint lstrip (s : string) : string :=
  match s with
  | EmptyString => EmptyString
  | String c s' => if is_space c then lstrip s' else s
  end.

(** [rstrip] drops the trailing white space: a character is kept when it is
    not white space or when something is kept after it. *)
Fixpoint rstrip (s : string) : string :=
  match s with
  | EmptyString => EmptyString
  | String c s' =>
      match rstrip s' with
      | EmptyString => if is_space c then EmptyString else String c EmptyString
      | r => String c r
      end
  end.

Definition strip (s : string) : string := rstrip (lstrip s).

(** [k in s] for two strings: [k] starts at some position of [s]. *)
Fixpoint contains (k s : string) : bool :=
  prefix k s ||
  match s with
  | EmptyString => false
  | String _ s' => contains k s'
  end.

(** What [contains] decides. *)
Definition substring_of (k s : string) : Prop :=
  exists a b, s = (a ++ k ++ b)%string.

End Str.

(** ** Column role resolver ([find_col], lines 80-85) *)

(** The inner loop [for k in keys: if k in c.lower(): return c]; [None] when
    the loop runs to its end. *)
Fixpoint scan_keys (c : string) (keys : list string) : option string :=
  match keys with
  | [] => None
  | k :: ks => if Str.contains k (Str.lower c) then Some c else scan_keys c ks
  end.

(** The outer loop over [df.columns]; the closing [return None]. *)
Fixpoint find_col (keys : list string) (cols : list string) : option string :=
  match cols with
  | [] => None
  | c :: cs =>
      match scan_keys c keys with
      | Some r => Some r
      | None => find_col keys cs
      end
  end.

(** A column answers a keyword list when its lowered name contains one of the
    keywords. *)
Definition answers (keys : list string) (c : string) : Prop :=
  exists k, In k keys /\ Str.substring_of k (Str.lower c).

Definition spec_headers : list string := ["Region"; "DPD Bucket"; "Connect"].

(** ** Frames, exceptions *)

(** A spreadsheet cell: text, a number, or empty (pandas' NaN). *)
Inductive cell : Type :=
| CStr (s : string)
| CNum (q : Q)
| CNaN.

(** A frame: the column labels in order and the rows in order, each row with
    its index label and one cell per column. *)
Record DataFrame : Type := mkFrame {
  columns : list string;
  rows : list (nat * list cell)
}.

(** The table as [pd.read_excel] has parsed it, before it is given its index:
    the column labels as [str] prints them (pandas has already told repeated
    headers apart, "Connect" and "Connect.1") and the data rows (pandas has
    already emptied the cells whose text it reads as missing, such as "NA"). *)
Record Sheet : Type := mkSheet {
  header : list string;
  body : list (list cell)
}.

(** The exceptions the script can end with; [Stop] is [st.error] followed by
    [st.stop()].  [KeyError label] is a KeyError raised for the missing column
    [label]; the message pandas puts in it may name further missing columns. *)
Inductive exn : Type :=
| Stop (msg : string)
| KeyError (label : string)
| TypeError
| AttributeError.

Inductive result (A : Type) : Type :=
| OK (a : A)
| Raise (e : exn).
Arguments OK {A} a.
Arguments Raise {A} e.

Definition bind {A B : Type} (m : result A) (k : A -> result B) : result B :=
  match m with
  | OK a => k a
  | Raise e => Raise e
  end.

Declare Scope py_scope.
Delimit Scope py_scope with py.
Notation "x <- m ;; k" := (bind m (fun x => k))
  (at level 61, m at next level, right associativity) : py_scope.
Local Open Scope py_scope.

(** Run [f] over a list, stopping at the first exception. *)
Fixpoint mapM {A B : Type} (f : A -> result B) (l : list A) : result (list B) :=
  match l with
  | [] => OK []
  | x :: t => y <- f x ;; ys <- mapM f t ;; OK (y :: ys)
  end.

(** The cell of [row] under the first column labelled [col]. *)
Fixpoint cell_of (col : string) (cols : list string) (row : list cell) : cell :=
  match cols, row with
  | c :: cs, x :: xs => if String.eqb c col then x else cell_of col cs xs
  | _, _ => CNaN
  end.

(** [df[col]]: nothing under an unknown label, a series under a label that one
    column bears, a frame (not a series) under a label that several bear. *)
Inductive selection : Type :=
| NoColumn
| Series (cells : list cell)
| SubFrame.

Definition getitem (df : DataFrame) (col : string) : selection :=
  match count_occ string_dec (columns df) col with
  | O => NoColumn
  | S O => Series (map (fun r => cell_of col (columns df) (snd r)) (rows df))
  | _ => SubFrame
  end.

(** [df[col]] where the script goes on with a series: [KeyError] under an
    unknown label; under a repeated label the next call fails with [e]
    ([pd.to_numeric] refuses a frame with [TypeError], a frame has no
    [unique]).  [load_data] and the sidebar raise on every repeated label the
    later stages look up, so those stages never meet one. *)
Definition series_or (e : exn) (df : DataFrame) (col : string) : result (list cell) :=
  match getitem df col with
  | NoColumn => Raise (KeyError col)
  | Series xs => OK xs
  | SubFrame => Raise e
  end.

(** [col in df.columns]. *)
Definition has_column (df : DataFrame) (col : string) : bool :=
  existsb (String.eqb col) (columns df).

(** [df[mask]] for a boolean series [mask]: the rows whose flag is set. *)
Fixpoint boolean_index (rs : list (nat * list cell)) (mask : list bool)
  : list (nat * list cell) :=
  match rs, mask with
  | r :: rs', b :: mask' =>
      if b then r :: boolean_index rs' mask' else boolean_index rs' mask'
  | _, _ => []
  end.

Definition take (df : DataFrame) (mask : list bool) : DataFrame :=
  mkFrame (columns df) (boolean_index (rows df) mask).

(** ** Loader ([load_data], lines 47-70) *)

Definition numeric_cols : list string :=
  [ "No of Loans"; "Dailed Customers"; "Connect"; "Nos. of PTP";
    "Nos of Loans Paid"; "Intensity"; "Collection Amount";
    "Principal Outstanding"; "POS 100%"; "Total Amt 100%";
    "Total Default Amount" ].

(** Rows as the reader hands them over: one cell per header cell, short rows
    padded with empty cells. *)
Definition fit (w : nat) (r : list cell) : list cell :=
  firstn w (r ++ repeat CNaN w).

Fixpoint enumerate {A : Type} (i : nat) (l : list A) : list (nat * A) :=
  match l with
  | [] => []
  | x :: t => (i, x) :: enumerate (S i) t
  end.

(** The last step of [pd.read_excel]: the parsed labels name the columns, the
    parsed rows are indexed 0, 1, 2, ... *)
Definition read_excel (s : Sheet) : DataFrame :=
  mkFrame (header s) (enumerate 0 (map (fit (length (header s))) (body s))).

(** [fillna(0)] on one cell. *)
Definition fillna0 (c : cell) : cell :=
  match c with
  | CNaN => CNum 0
  | _ => c
  end.

(** Assignment to one cell of a row: the cell under the column [col]. *)
Fixpoint map_cell (col : string) (f : cell -> cell) (cols : list string)
  (row : list cell) : list cell :=
  match cols, row with
  | c :: cs, x :: xs =>
      (if String.eqb c col then f x else x) :: map_cell col f cs xs
  | _, _ => row
  end.

(** [df[col] = f(df[col])] for an elementwise [f]. *)
Definition map_column (col : string) (f : cell -> cell) (df : DataFrame) : DataFrame :=
  mkFrame (columns df)
    (map (fun r => (fst r, map_cell col f (columns df) (snd r))) (rows df)).

Section Pipeline.

(** pandas' reading of a text cell as a number ([None]: not a number). *)
Variable parse_float : string -> option Q.
(** Python's printing of a number, as [astype(str)] uses it. *)
Variable repr_float : Q -> string.

(** [pd.to_numeric(..., errors="coerce")] on one cell: what does not read as
    a number becomes NaN. *)
Definition to_numeric (c : cell) : cell :=
  match c with
  | CNum q => CNum q
  | CStr s => match parse_float s with Some q => CNum q | None => CNaN end
  | CNaN => CNaN
  end.

(** One turn of the loop of lines 66-68. *)
Definition coerce_column (col : string) (df : DataFrame) : result DataFrame :=
  if has_column df col then
    match getitem df col with
    | SubFrame => Raise TypeError
    | _ => OK (map_column col (fun c => fillna0 (to_numeric c)) df)
    end
  else OK df.

Fixpoint coerce_columns (cols : list string) (df : DataFrame) : result DataFrame :=
  match cols with
  | [] => OK df
  | c :: cs => df' <- coerce_column c df ;; coerce_columns cs df'
  end.

Definition load_data (s : Sheet) : result DataFrame :=
  let df := read_excel s in
  let df := mkFrame (map Str.strip (columns df)) (rows df) in
  coerce_columns numeric_cols df.

(** *** Column resolution and sidebar (lines 87-110) *)

(** [astype(str)] on one cell. *)
Definition astype_str (c : cell) : string :=
  match c with
  | CStr s => s
  | CNum q => repr_float q
  | CNaN => "nan"
  end.

(** [Series.unique()]: first occurrences, in order. *)
Fixpoint unique (l : list string) : list string :=
  match l with
  | [] => []
  | x :: t => x :: filter (fun y => negb (String.eqb y x)) (unique t)
  end.

Fixpoint insert_sorted (x : string) (l : list string) : list string :=
  match l with
  | [] => [x]
  | y :: t => if String.leb x y then x :: l else y :: insert_sorted x t
  end.

Definition sorted (l : list string) : list string :=
  fold_right insert_sorted [] l.

(** The choices of a select box: ["All"] and the column's values as text. *)
Definition selectbox_options (df : DataFrame) (col : string) : result (list string) :=
  xs <- series_or AttributeError df col ;;
  OK ("All" :: sorted (unique (map astype_str xs))).

(** Python's truth value of what [find_col] returned. *)
Definition truthy (o : option string) : bool :=
  match o with
  | Some (String _ _) => true
  | _ => false
  end.

(** What the script holds when the sidebar is drawn. *)
Record Resolved : Type := mkResolved {
  frame : DataFrame;
  state_col : string;
  dpd_col : string;
  state_options : list string;
  dpd_options : list string
}.

(** Lines 72-105; [None] is a missing file. *)
Definition startup (file : option Sheet) : result Resolved :=
  match file with
  | None => Raise (Stop "Excel file not found. Check file name & location.")
  | Some s =>
      df <- load_data s ;;
      let sc := find_col ["state"] (columns df) in
      let dc := find_col ["dpd"] (columns df) in
      match sc, dc with
      | Some c1, Some c2 =>
          if truthy sc && truthy dc then
            o1 <- selectbox_options df c1 ;;
            o2 <- selectbox_options df c2 ;;
            OK (mkResolved df c1 c2 o1 o2)
          else Raise (Stop "State / DPD column not found in Excel")
      | _, _ => Raise (Stop "State / DPD column not found in Excel")
      end
  end.

(** *** Filters (lines 117-128) *)

(** [series > 0] on one cell; Python refuses to order text and a number. *)
Definition gt_zero (c : cell) : result bool :=
  match c with
  | CNum q => OK (negb (Qle_bool q 0))
  | CNaN => OK false
  | CStr _ => Raise TypeError
  end.

(** [series == 0] on one cell. *)
Definition eq_zero (c : cell) : bool :=
  match c with
  | CNum q => Qeq_bool q 0
  | _ => false
  end.

(** The step shared by the region and the bucket filter. *)
Definition filter_equal (col selected : string) (df : DataFrame) : result DataFrame :=
  if String.eqb selected "All" then OK df
  else
    xs <- series_or TypeError df col ;;
    OK (take df (map (fun c => String.eqb (astype_str c) selected) xs)).

Definition filter_connect (connect_filter : string) (df : DataFrame) : result DataFrame :=
  if String.eqb connect_filter "Connected" then
    xs <- series_or TypeError df "Connect" ;;
    mask <- mapM gt_zero xs ;;
    OK (take df mask)
  else if String.eqb connect_filter "Not Connected" then
    xs <- series_or TypeError df "Connect" ;;
    OK (take df (map eq_zero xs))
  else OK df.

(** [filtered_df] after line 128. *)
Definition apply_filters (df : DataFrame) (sc dc state dpd connect_filter : string)
  : result DataFrame :=
  f1 <- filter_equal sc state df ;;
  f2 <- filter_equal dc dpd f1 ;;
  filter_connect connect_filter f2.

(** *** Totals (lines 131-135) *)

(** [int(x)]: towards zero. *)
Definition py_int (q : Q) : Z := Z.quot (Qnum q) (Zpos (Qden q)).

(** The integer nearest to [q], the even one of two that are equally near. *)
Definition round_half_even (q : Q) : Z :=
  let d := Zpos (Qden q) in
  let fl := (Qnum q / d)%Z in
  match (2 * (Qnum q mod d) ?= d)%Z with
  | Lt => fl
  | Gt => (fl + 1)%Z
  | Eq => if Z.even fl then fl else (fl + 1)%Z
  end.

(** [round(q, ndigits)] in exact arithmetic. *)
Definition py_round (q : Q) (ndigits : nat) : Q :=
  let scale := Pos.pow 10 (Pos.of_nat ndigits) in
  match ndigits with
  | O => inject_Z (round_half_even q)
  | _ => Qred (round_half_even (q * inject_Z (Zpos scale)) # scale)
  end.

(** A Python number as the totals return it. *)
Inductive pyval : Type :=
| PyInt (z : Z)
| PyFloat (q : Q).

(** Python's [==] on numbers. *)
Definition py_eq (a b : pyval) : bool :=
  match a, b with
  | PyInt x, PyInt y => Z.eqb x y
  | PyInt x, PyFloat q => Qeq_bool (inject_Z x) q
  | PyFloat p, PyInt y => Qeq_bool p (inject_Z y)
  | PyFloat p, PyFloat q => Qeq_bool p q
  end.

(** [Series.sum()] in exact arithmetic: empty cells are skipped; text cannot
    be added to a number. *)
Fixpoint series_sum (xs : list cell) : result Q :=
  match xs with
  | [] => OK 0
  | CNum q :: t => s <- series_sum t ;; OK (q + s)
  | CNaN :: t => series_sum t
  | CStr _ :: _ => Raise TypeError
  end.

Definition one_e7 : Q := inject_Z 10000000.

(** Lines 131-132 and 134-135, read in exact arithmetic. *)
Definition total (filtered_df : DataFrame) (col : string) : result Z :=
  if has_column filtered_df col then
    xs <- series_or TypeError filtered_df col ;;
    s <- series_sum xs ;;
    OK (py_int s)
  else OK 0%Z.

Definition crore (filtered_df : DataFrame) (col : string) : result pyval :=
  if has_column filtered_df col then
    xs <- series_or TypeError filtered_df col ;;
    s <- series_sum xs ;;
    OK (PyFloat (py_round (s / one_e7) 2))
  else OK (PyInt 0).

(** *** Grouped sums (lines 165-170 and 183-184) *)

Definition cell_eqb (a b : cell) : bool :=
  match a, b with
  | CStr s, CStr t => String.eqb s t
  | CNum p, CNum q => Qeq_bool p q
  | _, _ => false
  end.

(** The order of group keys: numbers by value, text by code point, numbers
    before text. *)
Definition cell_leb (a b : cell) : bool :=
  match a, b with
  | CNum p, CNum q => Qle_bool p q
  | CNum _, _ => true
  | CStr s, CStr t => String.leb s t
  | CStr _, CNum _ => false
  | CStr _, CNaN => true
  | CNaN, CNaN => true
  | CNaN, _ => false
  end.

Fixpoint insert_key (k : cell) (l : list cell) : list cell :=
  match l with
  | [] => [k]
  | y :: t => if cell_leb k y then k :: l else y :: insert_key k t
  end.

Fixpoint unique_keys (l : list cell) : list cell :=
  match l with
  | [] => []
  | x :: t => x :: filter (fun y => negb (cell_eqb y x)) (unique_keys t)
  end.

Definition notna (c : cell) : bool :=
  match c with
  | CNaN => false
  | _ => true
  end.

(** The groups of [groupby]: the distinct keys that are not empty, sorted. *)
Definition group_keys (keys : list cell) : list cell :=
  fold_right insert_key [] (unique_keys (filter notna keys)).

(** The cells of [xs] on the rows whose key is [k]. *)
Definition group_cells (k : cell) (keys xs : list cell) : list cell :=
  map snd (filter (fun p => cell_eqb (fst p) k) (combine keys xs)).

(** [df.groupby(by)[cols].sum().reset_index()]: one row per group, the key
    and the sum of each selected column.  A selected column that the frame
    lacks is a [KeyError]. *)
Definition groupby_sum (df : DataFrame) (by_col : string) (cols : list string)
  : result (list (cell * list Q)) :=
  keys <- series_or TypeError df by_col ;;
  vals <- mapM (series_or TypeError df) cols ;;
  mapM (fun k =>
          sums <- mapM (fun xs => series_sum (group_cells k keys xs)) vals ;;
          OK (k, sums))
       (group_keys keys).

(** The chart tables: the summed columns and the same sums in crore. *)
Definition with_crore (t : list (cell * list Q)) : list (cell * list Q * list Q) :=
  map (fun g => (fst g, snd g, map (fun s => s / one_e7) (snd g))) t.

Definition state_summary (filtered_df : DataFrame) (sc : string)
  : result (list (cell * list Q * list Q)) :=
  t <- groupby_sum filtered_df sc ["Collection Amount"; "Principal Outstanding"] ;;
  OK (with_crore t).

Definition dpd_summary (filtered_df : DataFrame) (dc : string)
  : result (list (cell * list Q * list Q)) :=
  t <- groupby_sum filtered_df dc ["Collection Amount"] ;;
  OK (with_crore t).

(** *** The page (lines 117-202) *)

Definition total_kpis : list string :=
  ["No of Loans"; "Dailed Customers"; "Connect"; "Nos. of PTP"; "Intensity"].

Definition crore_kpis : list string :=
  ["Collection Amount"; "Principal Outstanding"; "Total Default Amount"].

Record Dashboard : Type := mkDashboard {
  totals : list Z;
  crores : list pyval;
  state_chart : list (cell * list Q * list Q);
  dpd_chart : list (cell * list Q * list Q);
  table : DataFrame;
  total_records : nat
}.

(** Everything below the sidebar, in the order the script runs it. *)
Definition render (r : Resolved) (state dpd connect_filter : string) : result Dashboard :=
  filtered_df <- apply_filters (frame r) (state_col r) (dpd_col r) state dpd connect_filter ;;
  ts <- mapM (total filtered_df) total_kpis ;;
  cs <- mapM (crore filtered_df) crore_kpis ;;
  ss <- state_summary filtered_df (state_col r) ;;
  ds <- dpd_summary filtered_df (dpd_col r) ;;
  OK (mkDashboard ts cs ss ds filtered_df (length (rows filtered_df))).

Definition dashboard (file : option Sheet) (state dpd connect_filter : string)
  : result Dashboard :=
  r <- startup file ;;
  render r state dpd connect_filter.

End Pipeline.

(** ** The number library as a parameter

    [filtered_df[col].sum()], [/ 1e7] and [round(..., 2)] run inside pandas and
    numpy on 64-bit integers and floats.  Here they are parameters: [crore_lib]
    is line 135 with whatever these three compute. *)

(** A cell that a numeric series can hold: a number or an empty cell. *)
Definition not_text (c : cell) : bool :=
  match c with
  | CStr _ => false
  | _ => true
  end.

Section NumberLibrary.

(** A number as numpy returns it. *)
Variable number : Type.
(** [filtered_df[col].sum()]: the sum of the column [col] over the rows [kept]
    of a table loaded from the sheet [s].  The sheet is an argument because
    pandas fixes the number type of a column when it loads it. *)
Variable lib_sum : Sheet -> string -> list (nat * list cell) -> number.
(** [x / 1e7]. *)
Variable lib_div : number -> number.
(** [round(x, 2)]. *)
Variable lib_round : number -> number.

(** What [crore] returns: the integer 0 of its guard, or a number. *)
Inductive kpi : Type :=
| KZero
| KNumber (x : number).

(** Line 135 on a table loaded from [s]; text in the column (which no loaded
    numeric column holds) is the TypeError of the exact reading. *)
Definition crore_lib (s : Sheet) (filtered_df : DataFrame) (col : string) : result kpi :=
  if has_column filtered_df col then
    xs <- series_or TypeError filtered_df col ;;
    if forallb not_text xs
    then OK (KNumber (lib_round (lib_div (lib_sum s col (rows filtered_df)))))
    else Raise TypeError
  else OK KZero.

End NumberLibrary.

Arguments KZero {number}.
Arguments KNumber {number} x.

(** ** Vocabulary of the statements *)

(** The frame [df] with only the rows that [p] keeps. *)
Definition narrow (p : nat * list cell -> bool) (df : DataFrame) : DataFrame :=
  mkFrame (columns df) (filter p (rows df)).

(** [sub] is [l] with some elements left out: nothing added, nothing repeated,
    nothing moved. *)
Inductive subseq {A : Type} : list A -> list A -> Prop :=
| subseq_nil : subseq [] []
| subseq_keep x sub l : subseq sub l -> subseq (x :: sub) (x :: l)
| subseq_drop x sub l : subseq sub l -> subseq sub (x :: l).

(** Filter steps run one after the other, the first exception ending the run. *)
Fixpoint run_steps (steps : list (DataFrame -> result DataFrame)) (df : DataFrame)
  : result DataFrame :=
  match steps with
  | [] => OK df
  | s :: rest => f <- s df ;; run_steps rest f
  end.

(** [series > 0] where it does not raise. *)
Definition is_positive (c : cell) : bool :=
  match c with
  | CNum q => negb (Qle_bool q 0)
  | _ => false
  end.

(** The row test of the connect filter under the selection [connect_filter]. *)
Definition keeps_connect (cols : list string) (connect_filter : string)
  (r : nat * list cell) : bool :=
  if String.eqb connect_filter "Connected" then
    is_positive (cell_of "Connect" cols (snd r))
  else if String.eqb connect_filter "Not Connected" then
    eq_zero (cell_of "Connect" cols (snd r))
  else true.

(** The number in a cell, zero for a cell that holds none. *)
Definition cell_value (c : cell) : Q :=
  match c with
  | CNum q => q
  | _ => 0
  end.

(** The sum of the column [col] over the rows [rs], written row by row. *)
Definition column_sum (cols : list string) (col : string) (rs : list (nat * list cell)) : Q :=
  fold_right (fun r acc => cell_value (cell_of col cols (snd r)) + acc) 0 rs.

(** A label that exactly one column bears. *)
Definition one_column (df : DataFrame) (col : string) : Prop :=
  count_occ string_dec (columns df) col = 1%nat.

(** The column [col] of [df] holds numbers only. *)
Definition all_numbers (df : DataFrame) (col : string) : Prop :=
  forall r, In r (rows df) -> exists q, cell_of col (columns df) (snd r) = CNum q.

(** The row test of the region and of the bucket filter under the selection
    [selected]; [repr_float] prints a number cell. *)
Definition keeps_equal (repr_float : Q -> string) (cols : list string)
  (col selected : string) (r : nat * list cell) : bool :=
  String.eqb selected "All" ||
  String.eqb (astype_str repr_float (cell_of col cols (snd r))) selected.

(** What lines 66-68 do to one cell of a listed column; [parse_float] reads a
    text cell. *)
Definition coerce (parse_float : string -> option Q) (c : cell) : cell :=
  fillna0 (to_numeric parse_float c).

(** What the loop of lines 66-68 does to one row: for each listed label that
    the frame has, the cell under it is coerced. *)
Definition load_row (parse_float : string -> option Q) (labels cols : list string)
  (row : list cell) : list cell :=
  fold_left
    (fun acc c => if existsb (String.eqb c) cols
                  then map_cell c (coerce parse_float) cols acc else acc)
    labels row.

(** No listed label is borne by two columns. *)
Definition labels_unique (labels cols : list string) : bool :=
  forallb (fun c => (count_occ string_dec cols c <=? 1)%nat) labels.

(** The loader's invariant in the specification's words: every cell of a
    listed column is a number that is not negative. *)
Definition numeric_nonneg (df : DataFrame) : Prop :=
  forall col, In col numeric_cols -> In col (columns df) ->
  forall r, In r (rows df) ->
  exists q, cell_of col (columns df) (snd r) = CNum q /\ 0 <= q.

(** The resolver's example in the specification's words. *)
Definition resolves_region_header : Prop :=
  find_col ["state"] spec_headers = Some "Region" /\
  find_col ["dpd"] spec_headers = Some "DPD Bucket".

(** The premise of the connect partition: the table has the column "Connect"
    and every value in it is a number that is not negative. *)
Definition connect_nonneg (df : DataFrame) : Prop :=
  one_column df "Connect" /\
  forall r, In r (rows df) ->
  exists q, cell_of "Connect" (columns df) (snd r) = CNum q /\ 0 <= q.

(** The connect selections that look the column up. *)
Definition selects_connect (connect_filter : string) : bool :=
  String.eqb connect_filter "Connected" || String.eqb connect_filter "Not Connected".


(** A step that, on every narrowing of [df], either keeps the rows that pass a
    fixed test or raises the fixed exception [e]. *)
Definition uniform_on (df : DataFrame) (e : exn)
  (step : DataFrame -> result DataFrame) : Prop :=
  (exists p, forall f, columns f = columns df -> incl (rows f) (rows df) ->
                       step f = OK (narrow p f)) \/
  (forall f, columns f = columns df -> step f = Raise e).

(** The sum of a column in exact arithmetic, as an instance of the number
    library's: the labels are the stripped headers of the sheet. *)
Definition exact_sum (s : Sheet) (col : string) (kept : list (nat * list cell)) : Q :=
  column_sum (map Str.strip (header s)) col kept.

(** ** Sample data *)

Definition digit_value (c : ascii) : option Z :=
  let n := nat_of_ascii c in
  if (48 <=? n)%nat && (n <=? 57)%nat then Some (Z.of_nat (n - 48)) else None.

Fixpoint read_digits (acc : Z) (s : string) : option Z :=
  match s with
  | EmptyString => Some acc
  | String c s' =>
      match digit_value c with
      | Some d => read_digits (10 * acc + d) s'
      | None => None
      end
  end.

(** A reader of text cells for the examples: unsigned decimal integers. *)
Definition sample_parse (s : string) : option Q :=
  match s with
  | EmptyString => None
  | _ => option_map inject_Z (read_digits 0 s)
  end.

(** A printer of number cells for the examples: it tells zero and one from
    the other numbers. *)
Definition sample_repr (q : Q) : string :=
  if Qeq_bool q 0 then "0.0" else if Qeq_bool q 1 then "1.0" else "x".

(** A workbook with a padded header, a text amount, an empty cell, a negative
    amount and a short row. *)
Definition sample_sheet : Sheet :=
  mkSheet
    [" State "; "DPD Bucket"; "Connect"; "Collection Amount"; "Principal Outstanding"]
    [ [CStr "MH"; CStr "0-30"; CNum 1; CNum 10000000; CNum 50000000];
      [CStr "MH"; CStr "31-60"; CNum 0; CNum 20000000; CStr "n/a"];
      [CStr "UP"; CStr "0-30"; CStr "2"; CNaN; CNum (-5)];
      [CStr "UP"] ].

Definition sample_frame : DataFrame :=
  mkFrame
    ["State"; "DPD Bucket"; "Connect"; "Collection Amount"; "Principal Outstanding"]
    [ (0%nat, [CStr "MH"; CStr "0-30"; CNum 1; CNum 10000000; CNum 50000000]);
      (1%nat, [CStr "MH"; CStr "31-60"; CNum 0; CNum 20000000; CNum 0]);
      (2%nat, [CStr "UP"; CStr "0-30"; CNum 2; CNum 0; CNum (-5)]);
      (3%nat, [CStr "UP"; CNaN; CNum 0; CNum 0; CNum 0]) ].

Definition sample_resolved : Resolved :=
  mkResolved sample_frame "State" "DPD Bucket"
    ["All"; "MH"; "UP"] ["All"; "0-30"; "31-60"; "nan"].

(** A workbook whose only amount is a reversal. *)
Definition reversal_sheet : Sheet :=
  mkSheet ["State"; "DPD"; "Collection Amount"]
          [ [CStr "MH"; CStr "0-30"; CNum (-5)] ].

Definition reversal_frame : DataFrame :=
  mkFrame ["State"; "DPD"; "Collection Amount"]
          [ (0%nat, [CStr "MH"; CStr "0-30"; CNum (-5)]) ].



(** A workbook without the two amounts that the charts sum. *)
Definition no_amounts_sheet : Sheet :=
  mkSheet ["State"; "DPD Bucket"; "No of Loans"; "Connect"]
          [ [CStr "MH"; CStr "0-30"; CNum 12; CNum 1];
            [CStr "UP"; CStr "31-60"; CNum 7; CNum 0] ].

Definition no_amounts_frame : DataFrame :=
  mkFrame ["State"; "DPD Bucket"; "No of Loans"; "Connect"]
          [ (0%nat, [CStr "MH"; CStr "0-30"; CNum 12; CNum 1]);
            (1%nat, [CStr "UP"; CStr "31-60"; CNum 7; CNum 0]) ].

(** A workbook without the column "Connect". *)
Definition no_connect_sheet : Sheet :=
  mkSheet ["State"; "DPD Bucket"; "Collection Amount"; "Principal Outstanding"]
          [ [CStr "MH"; CStr "0-30"; CNum 10000000; CNum 50000000] ].

(** The sample table narrowed to the region "MH" and to connected loans. *)
Definition sample_connected : DataFrame :=
  mkFrame
    ["State"; "DPD Bucket"; "Connect"; "Collection Amount"; "Principal Outstanding"]
    [ (0%nat, [CStr "MH"; CStr "0-30"; CNum 1; CNum 10000000; CNum 50000000]) ].

(** The sample table narrowed to the region "MH". *)
Definition sample_region : DataFrame :=
  mkFrame
    ["State"; "DPD Bucket"; "Connect"; "Collection Amount"; "Principal Outstanding"]
    [ (0%nat, [CStr "MH"; CStr "0-30"; CNum 1; CNum 10000000; CNum 50000000]);
      (1%nat, [CStr "MH"; CStr "31-60"; CNum 0; CNum 20000000; CNum 0]) ].

(** The sample table narrowed to a region that no row has. *)
Definition sample_nothing : DataFrame :=
  mkFrame
    ["State"; "DPD Bucket"; "Connect"; "Collection Amount"; "Principal Outstanding"]
    [].

(** ** Vocabulary of the further properties *)

(** The string begins, respectively ends, with a character that [strip]
    removes. *)
Definition starts_with_space (s : string) : bool :=
  match s with
  | EmptyString => false
  | String a _ => Str.is_space a
  end.

Fixpoint ends_with_space (s : string) : bool :=
  match s with
  | EmptyString => false
  | String a EmptyString => Str.is_space a
  | String _ s' => ends_with_space s'
  end.

(** A sheet with a repeated amount column and one without region or bucket. *)
Definition twice_connect_sheet : Sheet :=
  mkSheet ["State"; "DPD"; "Connect"; " Connect"]
          [ [CStr "MH"; CStr "0-30"; CNum 1; CNum 2] ].

Definition area_days_sheet : Sheet :=
  mkSheet ["Area"; "Days"] [ [CStr "MH"; CStr "0-30"] ].

(** The values of the column [col] as [astype(str)] prints them, row by row. *)
Definition column_texts (repr_float : Q -> string) (df : DataFrame) (col : string)
  : list string :=
  map (fun r => astype_str repr_float (cell_of col (columns df) (snd r))) (rows df).

(** What a select box offers over the values [values]: "All" first, then every
    value once, in ascending order. *)
Definition offers (options values : list string) : Prop :=
  exists l,
    options = "All" :: l /\
    Sorted (fun a b => String.leb a b = true) l /\
    NoDup l /\
    forall v, In v l <-> In v values.

(** The cells of the grouping column [by_col], row by row. *)
Definition key_cells (f : DataFrame) (by_col : string) : list cell :=
  map (fun r => cell_of by_col (columns f) (snd r)) (rows f).

(** A capital ASCII letter, and a string that holds one. *)
Definition is_upper (c : ascii) : bool :=
  let n := nat_of_ascii c in (65 <=? n)%nat && (n <=? 90)%nat.

Fixpoint has_upper (s : string) : bool :=
  match s with
  | EmptyString => false
  | String c s' => is_upper c || has_upper s'
  end.


Definition sample_connected_page : Dashboard :=
  mkDashboard
    [0; 0; 1; 0; 0]%Z
    [PyFloat 1; PyFloat 5; PyInt 0]
    [(CStr "MH", [10000000; 50000000], [1.0000000; 5.0000000])]
    [(CStr "0-30", [10000000], [1.0000000])]
    sample_connected 1.

(** * Proofs *)

(** ** Facts about strings *)

Lemma prefix_iff (k s : string) :
  prefix k s = true <-> exists b, s = (k ++ b)%string.
Proof.
  revert s; induction k as [|a k IH]; intros s; simpl.
  - destruct s; split; eauto.
  - destruct s as [|c s]; simpl.
    + split; [discriminate | intros [b Hb]; discriminate].
    + destruct (ascii_dec a c) as [->|Hne].
      * rewrite IH. split; intros [b Hb]; exists b; congruence.
      * split; [discriminate | intros [b Hb]; congruence].
Qed.

Lemma contains_prefix (k s : string) :
  prefix k s = true -> Str.contains k s = true.
Proof. intros H. destruct s; cbn [Str.contains]; rewrite H; reflexivity. Qed.

Lemma contains_of_split (k b a : string) :
  Str.contains k (a ++ k ++ b)%string = true.
Proof.
  induction a as [|c a IH]; simpl.
  - apply contains_prefix, prefix_iff. now exists b.
  - rewrite IH. apply orb_true_r.
Qed.

Lemma contains_iff (k s : string) :
  Str.contains k s = true <-> Str.substring_of k s.
Proof.
  split.
  - induction s as [|c s IH]; cbn [Str.contains]; intros H.
    + rewrite orb_false_r in H. apply prefix_iff in H as [b Hb].
      exists EmptyString, b. exact Hb.
    + apply orb_true_iff in H as [H|H].
      * apply prefix_iff in H as [b Hb]. exists EmptyString, b. exact Hb.
      * destruct (IH H) as (a & b & ->). now exists (String c a), b.
  - intros (a & b & ->). apply contains_of_split.
Qed.

(** ** Facts about [find_col] *)

Lemma scan_keys_some (c : string) (keys : list string) (r : string) :
  scan_keys c keys = Some r -> r = c /\ answers keys c.
Proof.
  induction keys as [|k ks IH]; simpl; [discriminate|].
  destruct (Str.contains k (Str.lower c)) eqn:E.
  - intros [= <-]. split; [reflexivity|].
    exists k. split; [now left | now apply contains_iff].
  - intros H. destruct (IH H) as (-> & k' & Hin & Hsub).
    split; [reflexivity|]. exists k'. split; [now right | assumption].
Qed.

Lemma scan_keys_none (c : string) (keys : list string) :
  scan_keys c keys = None <-> ~ answers keys c.
Proof.
  induction keys as [|k ks IH]; simpl.
  - split; [intros _ (k & [] & _) | reflexivity].
  - destruct (Str.contains k (Str.lower c)) eqn:E.
    + split; [discriminate|]. intros H. exfalso. apply H.
      exists k. split; [now left | now apply contains_iff].
    + rewrite IH. split; intros H (k' & Hin & Hsub); apply H.
      * destruct Hin as [<-|Hin]; [|now exists k'].
        apply contains_iff in Hsub. congruence.
      * exists k'. split; [now right | assumption].
Qed.

Lemma scan_keys_answers (c : string) (keys : list string) :
  answers keys c -> scan_keys c keys = Some c.
Proof.
  intros H. destruct (scan_keys c keys) as [r|] eqn:E.
  - apply scan_keys_some in E as [-> _]. reflexivity.
  - apply scan_keys_none in E. contradiction.
Qed.

Lemma find_col_some (keys cols : list string) (c : string) :
  find_col keys cols = Some c <->
  exists pre post,
    cols = pre ++ c :: post /\ answers keys c /\
    forall c', In c' pre -> ~ answers keys c'.
Proof.
  revert c; induction cols as [|x xs IH]; intros c; simpl.
  - split; [discriminate|]. intros (pre & post & H & _). now destruct pre.
  - destruct (scan_keys x keys) as [r|] eqn:E.
    + apply scan_keys_some in E as [-> Hx]. split.
      * intros [= <-]. exists [], xs.
        split; [reflexivity | split; [assumption | intros ? []]].
      * intros (pre & post & Hc & Hans & Hpre). destruct pre as [|p pre].
        -- now injection Hc as ->.
        -- injection Hc as -> _. exfalso. apply (Hpre p); [now left | assumption].
    + apply scan_keys_none in E. rewrite IH. split.
      * intros (pre & post & -> & Hans & Hpre). exists (x :: pre), post.
        repeat split; auto. intros c' [<-|Hin]; auto.
      * intros (pre & post & Hc & Hans & Hpre). destruct pre as [|p pre].
        -- injection Hc as -> _. contradiction.
        -- injection Hc as -> ->. exists pre, post.
           repeat split; auto. intros c' Hin. apply Hpre. now right.
Qed.

Lemma find_col_none (keys cols : list string) :
  find_col keys cols = None <-> forall c, In c cols -> ~ answers keys c.
Proof.
  induction cols as [|x xs IH]; simpl.
  - split; [intros _ ? [] | reflexivity].
  - destruct (scan_keys x keys) as [r|] eqn:E.
    + apply scan_keys_some in E as [-> Hx]. split; [discriminate|].
      intros H. exfalso. apply (H x); [now left | assumption].
    + apply scan_keys_none in E. rewrite IH. split.
      * intros H c [<-|Hin]; auto.
      * intros H c Hin. apply H. now right.
Qed.


(** C5: the resolver returns the first column, in table order, whose lowered
    name contains one of the keywords as a substring, whichever keyword that
    is and wherever it stands in the keyword list; it returns "not found"
    exactly when no column contains any keyword. *)
Theorem find_col_first_match (keys cols : list string) :
  (forall c,
      find_col keys cols = Some c <->
      exists pre post,
        cols = pre ++ c :: post /\
        (exists k, In k keys /\ Str.substring_of k (Str.lower c)) /\
        (forall c' k, In c' pre -> In k keys ->
                      ~ Str.substring_of k (Str.lower c'))) /\
  (find_col keys cols = None <->
   forall c k, In c cols -> In k keys -> ~ Str.substring_of k (Str.lower c)).
Proof.
  split.
  - intros c. rewrite find_col_some. split.
    + intros (pre & post & Hc & Hans & Hpre). exists pre, post.
      repeat split; auto. intros c' k Hin Hk Hsub. apply (Hpre c' Hin).
      now exists k.
    + intros (pre & post & Hc & Hans & Hpre). exists pre, post.
      repeat split; auto. intros c' Hin (k & Hk & Hsub). exact (Hpre c' k Hin Hk Hsub).
  - rewrite find_col_none. split.
    + intros H c k Hin Hk Hsub. apply (H c Hin). now exists k.
    + intros H c Hin (k & Hk & Hsub). exact (H c k Hin Hk Hsub).
Qed.

(** The tie-break at work: the first column wins although it answers the
    second keyword. *)
Example find_col_first_column_wins :
  find_col ["dpd"; "state"] ["Customer State"; "DPD Bucket"] = Some "Customer State".
Proof. reflexivity. Qed.

(** The example as the specification has it fails: "region" does not contain
    "state". *)
Lemma find_col_region_header_refuted : ~ resolves_region_header.
Proof. intros [H _]. vm_compute in H. discriminate H. Qed.

(** C1 (amended): on the headers ["Region"; "DPD Bucket"; "Connect"] the
    resolver finds no column for the keyword "state" (no header contains it,
    "Region" does not), and it returns "DPD Bucket" for the keyword "dpd",
    whose capitals the lowering takes care of. *)
Theorem find_col_spec_headers :
  find_col ["state"] spec_headers = None /\
  find_col ["dpd"] spec_headers = Some "DPD Bucket" /\
  forall c, In c spec_headers -> Str.contains "state" (Str.lower c) = false.
Proof.
  repeat split; try reflexivity.
  intros c Hin. simpl in Hin.
  destruct Hin as [<-|[<-|[<-|[]]]]; reflexivity.
Qed.

(** ** Facts about frames and masks *)

Lemma boolean_index_map (p : nat * list cell -> bool) (rs : list (nat * list cell)) :
  boolean_index rs (map p rs) = filter p rs.
Proof.
  induction rs as [|r rs IH]; simpl; [reflexivity|].
  rewrite IH. now destruct (p r).
Qed.

Lemma filter_all {A : Type} (l : list A) : filter (fun _ => true) l = l.
Proof. induction l; simpl; congruence. Qed.

Lemma filter_and {A : Type} (p q : A -> bool) (l : list A) :
  filter q (filter p l) = filter (fun x => p x && q x) l.
Proof.
  induction l as [|a l IH]; simpl; [reflexivity|].
  destruct (p a); simpl; rewrite ?IH; reflexivity.
Qed.

Lemma subseq_filter {A : Type} (p : A -> bool) (l : list A) : subseq (filter p l) l.
Proof.
  induction l as [|a l IH]; simpl; [constructor|].
  destruct (p a); now constructor.
Qed.

Lemma subseq_in {A : Type} (sub l : list A) (x : A) :
  subseq sub l -> In x sub -> In x l.
Proof.
  induction 1 as [|y sub l _ IH|y sub l _ IH]; simpl; intuition.
Qed.

Lemma subseq_map {A B : Type} (f : A -> B) (sub l : list A) :
  subseq sub l -> subseq (map f sub) (map f l).
Proof. induction 1; simpl; now constructor. Qed.

Lemma subseq_nodup {A : Type} (sub l : list A) :
  subseq sub l -> NoDup l -> NoDup sub.
Proof.
  induction 1 as [|y sub l Hs IH|y sub l Hs IH]; intros Hl.
  - constructor.
  - inversion Hl as [|? ? Hy Hl']; subst. constructor; auto.
    intros Hin. apply Hy. eapply subseq_in; eauto.
  - inversion Hl; subst. auto.
Qed.

Lemma getitem_series (df : DataFrame) (col : string) :
  one_column df col ->
  getitem df col = Series (map (fun r => cell_of col (columns df) (snd r)) (rows df)).
Proof. unfold one_column, getitem. now intros ->. Qed.

Lemma getitem_series_inv (df : DataFrame) (col : string) (xs : list cell) :
  getitem df col = Series xs ->
  one_column df col /\ xs = map (fun r => cell_of col (columns df) (snd r)) (rows df).
Proof.
  unfold one_column, getitem.
  destruct (count_occ string_dec (columns df) col) as [|[|n]]; try discriminate.
  now intros [= <-].
Qed.

Lemma has_column_in (df : DataFrame) (col : string) :
  has_column df col = true <-> In col (columns df).
Proof.
  unfold has_column. rewrite existsb_exists. split.
  - intros (x & Hin & Heq). apply String.eqb_eq in Heq. now subst.
  - intros Hin. exists col. split; [assumption | apply String.eqb_refl].
Qed.

Lemma has_column_false (df : DataFrame) (col : string) :
  has_column df col = false <-> count_occ string_dec (columns df) col = 0%nat.
Proof.
  rewrite <- count_occ_not_In, <- has_column_in.
  destruct (has_column df col); split; congruence.
Qed.

Lemma mapM_gt_zero (xs : list cell) (mask : list bool) :
  mapM gt_zero xs = OK mask -> mask = map is_positive xs.
Proof.
  revert mask; induction xs as [|c xs IH]; simpl; intros mask.
  - now intros [= <-].
  - destruct c; simpl; try discriminate;
      destruct (mapM gt_zero xs) as [m|e]; simpl; try discriminate;
      intros [= <-]; f_equal; auto.
Qed.

Lemma mapM_gt_zero_numbers (xs : list cell) :
  Forall (fun c => exists q, c = CNum q) xs ->
  mapM gt_zero xs = OK (map is_positive xs).
Proof.
  induction 1 as [|c xs [q ->] _ IH]; simpl; [reflexivity|].
  now rewrite IH.
Qed.

Section FilterFacts.

Variable repr_float : Q -> string.



Lemma filter_equal_inv (col selected : string) (df f : DataFrame) :
  filter_equal repr_float col selected df = OK f ->
  f = narrow (keeps_equal repr_float (columns df) col selected) df.
Proof.
  unfold filter_equal, narrow, keeps_equal.
  destruct (String.eqb selected "All") eqn:E; simpl.
  - intros [= <-]. rewrite filter_all. now destruct df.
  - unfold series_or. destruct (getitem df col) as [|xs|] eqn:G; simpl; try discriminate.
    apply getitem_series_inv in G as [_ ->].
    intros [= <-]. unfold take. now rewrite map_map, boolean_index_map.
Qed.

Lemma filter_equal_ok (col selected : string) (df : DataFrame) :
  one_column df col ->
  filter_equal repr_float col selected df =
  OK (narrow (keeps_equal repr_float (columns df) col selected) df).
Proof.
  intros H. unfold filter_equal, narrow, keeps_equal.
  destruct (String.eqb selected "All") eqn:E; simpl.
  - rewrite filter_all. now destruct df.
  - unfold series_or. rewrite (getitem_series _ _ H). simpl.
    unfold take. now rewrite map_map, boolean_index_map.
Qed.

Lemma filter_connect_inv (connect_filter : string) (df f : DataFrame) :
  filter_connect connect_filter df = OK f ->
  f = narrow (keeps_connect (columns df) connect_filter) df.
Proof.
  unfold filter_connect, narrow, keeps_connect.
  destruct (String.eqb connect_filter "Connected") eqn:E1;
    [|destruct (String.eqb connect_filter "Not Connected") eqn:E2].
  - unfold series_or. destruct (getitem df "Connect") as [|xs|] eqn:G; simpl; try discriminate.
    apply getitem_series_inv in G as [_ ->].
    destruct (mapM gt_zero _) as [mask|e] eqn:M; simpl; try discriminate.
    apply mapM_gt_zero in M as ->.
    intros [= <-]. unfold take. now rewrite map_map, boolean_index_map.
  - unfold series_or. destruct (getitem df "Connect") as [|xs|] eqn:G; simpl; try discriminate.
    apply getitem_series_inv in G as [_ ->].
    intros [= <-]. unfold take. now rewrite map_map, boolean_index_map.
  - intros [= <-]. rewrite filter_all. now destruct df.
Qed.

Lemma apply_filters_inv (df f : DataFrame) (sc dc state dpd connect_filter : string) :
  apply_filters repr_float df sc dc state dpd connect_filter = OK f ->
  f = narrow (fun r => keeps_equal repr_float (columns df) sc state r &&
                       keeps_equal repr_float (columns df) dc dpd r &&
                       keeps_connect (columns df) connect_filter r) df.
Proof.
  unfold apply_filters.
  destruct (filter_equal repr_float sc state df) as [f1|] eqn:E1; simpl; try discriminate.
  destruct (filter_equal repr_float dc dpd f1) as [f2|] eqn:E2; simpl; try discriminate.
  intros E3.
  apply filter_equal_inv in E1. apply filter_equal_inv in E2.
  apply filter_connect_inv in E3. subst. unfold narrow. simpl.
  rewrite (filter_and (keeps_equal repr_float _ sc state)), filter_and. reflexivity.
Qed.

End FilterFacts.

(** ** Facts about the loader *)

Lemma enumerate_fst {A : Type} (i : nat) (l : list A) :
  map fst (enumerate i l) = seq i (length l).
Proof.
  revert i; induction l as [|x l IH]; intros i; simpl; [reflexivity|].
  now rewrite IH.
Qed.

Lemma enumerate_nth {A : Type} (l : list A) (i n : nat) (x : A) :
  nth_error l n = Some x -> nth_error (enumerate i l) n = Some (i + n, x)%nat.
Proof.
  revert i n; induction l as [|y l IH]; intros i [|n]; simpl; try discriminate.
  - intros [= ->]. now rewrite Nat.add_0_r.
  - intros H. rewrite (IH (S i) n H). f_equal. f_equal. lia.
Qed.

Lemma enumerate_snd {A : Type} (i : nat) (l : list A) (r : nat * A) :
  In r (enumerate i l) -> In (snd r) l.
Proof.
  revert i; induction l as [|y l IH]; intros i; simpl; [tauto|].
  intros [<-|H]; [now left | right; eauto].
Qed.

Lemma fit_length (w : nat) (r : list cell) : length (fit w r) = w.
Proof.
  unfold fit. rewrite length_firstn, length_app, repeat_length. lia.
Qed.

Lemma map_cell_length (col : string) (f : cell -> cell) (cols : list string)
  (row : list cell) : length (map_cell col f cols row) = length row.
Proof.
  revert row; induction cols as [|c cs IH]; intros [|x xs]; simpl; auto.
Qed.

Lemma cell_of_map_cell_other (c col : string) (f : cell -> cell)
  (cols : list string) (row : list cell) :
  String.eqb c col = false ->
  cell_of c cols (map_cell col f cols row) = cell_of c cols row.
Proof.
  intros Hne. revert row; induction cols as [|x cs IH]; intros [|y ys]; simpl; auto.
  destruct (String.eqb x c) eqn:E; [|apply IH].
  apply String.eqb_eq in E; subst x. now rewrite Hne.
Qed.

Lemma cell_of_map_cell_same (col : string) (f : cell -> cell)
  (cols : list string) (row : list cell) :
  existsb (String.eqb col) cols = true -> length row = length cols ->
  cell_of col cols (map_cell col f cols row) = f (cell_of col cols row).
Proof.
  revert row; induction cols as [|x cs IH]; intros [|y ys]; simpl; try discriminate.
  intros Hin Hlen. rewrite (String.eqb_sym col x) in Hin.
  destruct (String.eqb x col) eqn:E; [reflexivity|].
  simpl in Hin. apply IH; [assumption | congruence].
Qed.

Section LoaderFacts.

Variable parse_float : string -> option Q.

Lemma coerce_number (c : cell) : exists q, coerce parse_float c = CNum q.
Proof.
  unfold coerce. destruct c as [s|q|]; simpl; eauto.
  destruct (parse_float s); simpl; eauto.
Qed.

Lemma coerce_idempotent (c : cell) :
  coerce parse_float (coerce parse_float c) = coerce parse_float c.
Proof. destruct (coerce_number c) as [q ->]. reflexivity. Qed.

Lemma load_row_length (labels cols : list string) (row : list cell) :
  length (load_row parse_float labels cols row) = length row.
Proof.
  revert row; induction labels as [|a L IH]; intros row; simpl; [reflexivity|].
  unfold load_row in *. simpl. rewrite IH.
  destruct (existsb (String.eqb a) cols); [apply map_cell_length | reflexivity].
Qed.

Lemma cell_of_load_row (labels cols : list string) (row : list cell) (c : string) :
  length row = length cols ->
  cell_of c cols (load_row parse_float labels cols row) =
  if existsb (String.eqb c) labels && existsb (String.eqb c) cols
  then coerce parse_float (cell_of c cols row)
  else cell_of c cols row.
Proof.
  revert row; induction labels as [|a L IH]; intros row Hlen; [reflexivity|].
  change (load_row parse_float (a :: L) cols row)
    with (load_row parse_float L cols
            (if existsb (String.eqb a) cols
             then map_cell a (coerce parse_float) cols row else row)).
  rewrite IH by (destruct (existsb (String.eqb a) cols);
                 [now rewrite map_cell_length | assumption]).
  simpl existsb. destruct (String.eqb c a) eqn:E.
  - apply String.eqb_eq in E; subst a. simpl.
    destruct (existsb (String.eqb c) cols) eqn:Hc.
    + rewrite cell_of_map_cell_same by assumption.
      rewrite andb_true_r. destruct (existsb (String.eqb c) L);
        [apply coerce_idempotent | reflexivity].
    + now rewrite andb_false_r.
  - simpl. replace (cell_of c cols (if existsb (String.eqb a) cols
                     then map_cell a (coerce parse_float) cols row else row))
      with (cell_of c cols row); [reflexivity|].
    destruct (existsb (String.eqb a) cols); [|reflexivity].
    symmetry. now apply cell_of_map_cell_other.
Qed.

(** The loop as one equation: it fails where a listed label is borne by
    several columns, and otherwise rewrites every row by [load_row]. *)
Lemma coerce_columns_eq (labels : list string) (df : DataFrame) :
  coerce_columns parse_float labels df =
  if labels_unique labels (columns df)
  then OK (mkFrame (columns df)
             (map (fun r => (fst r, load_row parse_float labels (columns df) (snd r)))
                  (rows df)))
  else Raise TypeError.
Proof.
  revert df; induction labels as [|a L IH]; intros df; simpl.
  - destruct df as [cols rs]; simpl. f_equal. f_equal.
    induction rs as [|[i r] rs IHr]; simpl; congruence.
  - unfold coerce_column, getitem.
    destruct (has_column df a) eqn:Hc.
    + destruct (count_occ string_dec (columns df) a) as [|[|n]] eqn:Hn; simpl.
      * apply has_column_in, (count_occ_In string_dec) in Hc. lia.
      * rewrite IH. simpl. destruct (labels_unique L (columns df)); [|reflexivity].
        rewrite map_map. simpl. unfold load_row at 2. simpl.
        unfold has_column in Hc. rewrite Hc. reflexivity.
      * reflexivity.
    + simpl. rewrite IH. apply has_column_false in Hc as Hn. rewrite Hn. simpl.
      destruct (labels_unique L (columns df)); [|reflexivity].
      unfold load_row at 2. simpl. unfold has_column in Hc. rewrite Hc. reflexivity.
Qed.

Lemma load_data_eq (s : Sheet) :
  load_data parse_float s =
  let cols := map Str.strip (header s) in
  if labels_unique numeric_cols cols
  then OK (mkFrame cols
             (map (fun r => (fst r, load_row parse_float numeric_cols cols (snd r)))
                  (enumerate 0 (map (fit (length (header s))) (body s)))))
  else Raise TypeError.
Proof. unfold load_data. now rewrite coerce_columns_eq. Qed.

End LoaderFacts.

Section LoadedFrames.

Variable parse_float : string -> option Q.

Lemma coerce_columns_inv (labels : list string) (df0 df : DataFrame) :
  coerce_columns parse_float labels df0 = OK df ->
  labels_unique labels (columns df0) = true /\
  columns df = columns df0 /\
  rows df =
    map (fun r => (fst r, load_row parse_float labels (columns df0) (snd r)))
        (rows df0).
Proof.
  rewrite coerce_columns_eq.
  destruct (labels_unique labels (columns df0)); [|discriminate].
  intros H. injection H as <-. auto.
Qed.

Lemma load_data_inv (s : Sheet) (df : DataFrame) :
  load_data parse_float s = OK df ->
  labels_unique numeric_cols (columns df) = true /\
  columns df = map Str.strip (header s) /\
  rows df =
    map (fun r => (fst r, load_row parse_float numeric_cols (columns df) (snd r)))
        (enumerate 0 (map (fit (length (header s))) (body s))).
Proof.
  unfold load_data. intros H.
  apply coerce_columns_inv in H as (U & Hc & Hr).
  cbn [columns rows read_excel] in U, Hc, Hr.
  rewrite Hc. auto.
Qed.

Lemma load_data_index (s : Sheet) (df : DataFrame) :
  load_data parse_float s = OK df ->
  map fst (rows df) = seq 0 (length (body s)).
Proof.
  intros H. apply load_data_inv in H as (_ & _ & ->).
  rewrite map_map. simpl.
  change (fun x : nat * list cell => fst x) with (@fst nat (list cell)).
  now rewrite enumerate_fst, length_map.
Qed.

Lemma load_data_one_column (s : Sheet) (df : DataFrame) (col : string) :
  load_data parse_float s = OK df ->
  In col numeric_cols -> In col (columns df) -> one_column df col.
Proof.
  intros H Hn Hc. apply load_data_inv in H as (U & _ & _).
  unfold labels_unique in U. rewrite forallb_forall in U.
  specialize (U col Hn). apply Nat.leb_le in U.
  apply (count_occ_In string_dec) in Hc. unfold one_column. lia.
Qed.

Lemma load_data_at_most_one (s : Sheet) (df : DataFrame) (col : string) :
  load_data parse_float s = OK df ->
  In col numeric_cols -> (count_occ string_dec (columns df) col <= 1)%nat.
Proof.
  intros H Hn. apply load_data_inv in H as (U & _ & _).
  unfold labels_unique in U. rewrite forallb_forall in U.
  now apply Nat.leb_le, U.
Qed.

Lemma load_data_rows (s : Sheet) (df : DataFrame) (r : nat * list cell) :
  load_data parse_float s = OK df -> In r (rows df) ->
  exists row0,
    length row0 = length (columns df) /\
    snd r = load_row parse_float numeric_cols (columns df) row0.
Proof.
  intros H Hr. apply load_data_inv in H as (_ & Hc & Hrows).
  rewrite Hrows in Hr. apply in_map_iff in Hr as (r0 & <- & Hr0).
  apply enumerate_snd, in_map_iff in Hr0 as (raw & Hraw & _).
  exists (snd r0). split; [|reflexivity].
  now rewrite <- Hraw, fit_length, Hc, length_map.
Qed.

Lemma load_data_numbers (s : Sheet) (df : DataFrame) (col : string) :
  load_data parse_float s = OK df ->
  In col numeric_cols -> In col (columns df) -> all_numbers df col.
Proof.
  intros H Hn Hc r Hr.
  destruct (load_data_rows s df r H Hr) as (row0 & Hlen & ->).
  rewrite cell_of_load_row by assumption.
  replace (existsb (String.eqb col) numeric_cols) with true.
  - replace (existsb (String.eqb col) (columns df)) with true.
    + apply coerce_number.
    + symmetry. now apply (has_column_in df col).
  - symmetry. apply existsb_exists. exists col. split; [assumption | apply String.eqb_refl].
Qed.

(** C3 (amended): after a load that returns, every cell of a listed column
    that the table has is a number, never empty and never text: it is the
    number that the coercion read from the cell of the workbook, of either
    sign, and it is exactly zero where the coercion read none.  Rows keep
    their place and their count. *)
Theorem load_data_numeric_columns (s : Sheet) (df : DataFrame) (col : string) :
  load_data parse_float s = OK df ->
  In col numeric_cols -> In col (columns df) ->
  length (rows df) = length (body s) /\
  all_numbers df col /\
  forall i raw,
    nth_error (body s) i = Some raw ->
    exists row,
      nth_error (rows df) i = Some (i, row) /\
      cell_of col (columns df) row =
      match to_numeric parse_float
              (cell_of col (columns df) (fit (length (header s)) raw)) with
      | CNum q => CNum q
      | _ => CNum 0
      end.
Proof.
  intros H Hn Hc. split; [|split].
  - rewrite <- (length_map fst), (load_data_index s df H). apply length_seq.
  - now apply (load_data_numbers s).
  - intros i raw Hraw.
    destruct (load_data_inv s df H) as (_ & Hcols & Hrows).
    exists (load_row parse_float numeric_cols (columns df)
              (fit (length (header s)) raw)).
    split.
    + rewrite Hrows.
      erewrite map_nth_error;
        [|apply enumerate_nth, map_nth_error; exact Hraw]. reflexivity.
    + rewrite cell_of_load_row
        by (now rewrite fit_length, Hcols, length_map).
      replace (existsb (String.eqb col) numeric_cols) with true.
      * replace (existsb (String.eqb col) (columns df)) with true.
        -- cbn [andb].
           generalize (cell_of col (columns df) (fit (length (header s)) raw)).
           intros [t|q|]; unfold coerce; cbn [to_numeric fillna0];
             try destruct (parse_float t); reflexivity.
        -- symmetry. now apply (has_column_in df col).
      * symmetry. apply existsb_exists. exists col.
        split; [assumption | apply String.eqb_refl].
Qed.

End LoadedFrames.

(** A negative amount in the workbook is still negative after the load. *)
Lemma load_data_negative_amount :
  load_data sample_parse reversal_sheet = OK reversal_frame /\
  ~ numeric_nonneg reversal_frame.
Proof.
  split; [vm_compute; reflexivity|].
  intros H.
  destruct (H "Collection Amount") with (r := (0%nat, [CStr "MH"; CStr "0-30"; CNum (-5)]))
    as (q & Hq & Hpos).
  - simpl. tauto.
  - simpl. tauto.
  - simpl. tauto.
  - simpl in Hq. injection Hq as <-. now apply Hpos.
Qed.

(** The loader's property at the sample workbook, whose principal column has
    a text cell, a negative number and a missing cell. *)
Lemma load_data_numeric_columns_witness :
  load_data sample_parse sample_sheet = OK sample_frame /\
  length (rows sample_frame) = length (body sample_sheet) /\
  all_numbers sample_frame "Principal Outstanding" /\
  forall i raw,
    nth_error (body sample_sheet) i = Some raw ->
    exists row,
      nth_error (rows sample_frame) i = Some (i, row) /\
      cell_of "Principal Outstanding" (columns sample_frame) row =
      match to_numeric sample_parse
              (cell_of "Principal Outstanding" (columns sample_frame)
                 (fit (length (header sample_sheet)) raw)) with
      | CNum q => CNum q
      | _ => CNum 0
      end.
Proof.
  split; [vm_compute; reflexivity|].
  apply (load_data_numeric_columns sample_parse sample_sheet sample_frame
           "Principal Outstanding").
  - vm_compute; reflexivity.
  - simpl; tauto.
  - simpl; tauto.
Defined.

(** ** Facts about the pipeline *)

Lemma bind_OK {A : Type} (m : result A) : bind m OK = m.
Proof. now destruct m. Qed.

Lemma filter_swap {A : Type} (p q : A -> bool) (l : list A) :
  filter q (filter p l) = filter p (filter q l).
Proof.
  rewrite !filter_and. apply filter_ext. intros x. apply andb_comm.
Qed.

Lemma filter_partition {A : Type} (p q : A -> bool) (l : list A) :
  (forall x, In x l -> q x = negb (p x)) ->
  Permutation l (filter p l ++ filter q l).
Proof.
  induction l as [|a l IH]; intros H; simpl; [constructor|].
  rewrite (H a (or_introl eq_refl)).
  assert (IH' : Permutation l (filter p l ++ filter q l))
    by (apply IH; intros x Hx; apply H; now right).
  destruct (p a); simpl.
  - now constructor.
  - now apply Permutation_cons_app.
Qed.

Lemma nonneg_zero_or_positive (q : Q) :
  0 <= q -> Qeq_bool q 0 = negb (negb (Qle_bool q 0)).
Proof.
  intros H. rewrite negb_involutive.
  destruct (Qeq_bool q 0) eqn:E1, (Qle_bool q 0) eqn:E2; try reflexivity.
  - apply Qeq_bool_iff in E1. rewrite <- not_true_iff_false, Qle_bool_iff in E2.
    exfalso. apply E2. rewrite E1. apply Qle_refl.
  - apply Qle_bool_iff in E2. rewrite <- not_true_iff_false, Qeq_bool_iff in E1.
    exfalso. apply E1. now apply Qle_antisym.
Qed.

Lemma positive_not_zero (c : cell) : is_positive c = true -> eq_zero c = false.
Proof.
  destruct c as [s|q|]; simpl; try discriminate.
  intros H. apply negb_true_iff in H.
  destruct (Qeq_bool q 0) eqn:E; [|reflexivity].
  apply Qeq_bool_iff in E. rewrite <- not_true_iff_false, Qle_bool_iff in H.
  exfalso. apply H. rewrite E. apply Qle_refl.
Qed.

Lemma series_sum_numbers (cols : list string) (col : string) (rs : list (nat * list cell)) :
  (forall r, In r rs -> exists q, cell_of col cols (snd r) = CNum q) ->
  series_sum (map (fun r => cell_of col cols (snd r)) rs) = OK (column_sum cols col rs).
Proof.
  induction rs as [|r rs IH]; intros H; [reflexivity|].
  destruct (H r (or_introl eq_refl)) as [q Hq].
  cbn [map series_sum column_sum fold_right]. rewrite Hq.
  rewrite IH by (intros x Hx; apply H; now right). reflexivity.
Qed.

Lemma total_empty (f : DataFrame) (col : string) :
  (count_occ string_dec (columns f) col <= 1)%nat -> rows f = [] ->
  total f col = OK 0%Z.
Proof.
  intros Hc Hr. unfold total. destruct (has_column f col) eqn:E; [|reflexivity].
  apply has_column_in, (count_occ_In string_dec) in E.
  unfold series_or. rewrite getitem_series by (unfold one_column; lia).
  rewrite Hr. reflexivity.
Qed.

Lemma crore_empty (f : DataFrame) (col : string) :
  (count_occ string_dec (columns f) col <= 1)%nat -> rows f = [] ->
  crore f col = OK (if has_column f col then PyFloat 0 else PyInt 0).
Proof.
  intros Hc Hr. unfold crore. destruct (has_column f col) eqn:E; [|reflexivity].
  apply has_column_in, (count_occ_In string_dec) in E.
  unfold series_or. rewrite getitem_series by (unfold one_column; lia).
  rewrite Hr. reflexivity.
Qed.

Lemma total_kpis_listed (col : string) : In col total_kpis -> In col numeric_cols.
Proof.
  unfold total_kpis, numeric_cols. cbn [In].
  intros H; repeat (destruct H as [<-|H]; [auto 20|]); contradiction.
Qed.

Lemma crore_kpis_listed (col : string) : In col crore_kpis -> In col numeric_cols.
Proof.
  unfold crore_kpis, numeric_cols. cbn [In].
  intros H; repeat (destruct H as [<-|H]; [auto 20|]); contradiction.
Qed.

Lemma filter_connect_unselected (connect_filter : string) (f : DataFrame) :
  selects_connect connect_filter = false -> filter_connect connect_filter f = OK f.
Proof.
  unfold selects_connect, filter_connect. intros H.
  apply orb_false_iff in H as [-> ->]. reflexivity.
Qed.

Lemma filter_connect_absent (connect_filter : string) (f : DataFrame) :
  selects_connect connect_filter = true -> has_column f "Connect" = false ->
  filter_connect connect_filter f = Raise (KeyError "Connect").
Proof.
  unfold selects_connect, filter_connect, series_or, getitem. intros H Hc.
  apply has_column_false in Hc. rewrite Hc.
  destruct (String.eqb connect_filter "Connected"); [reflexivity|].
  simpl in H. rewrite H. reflexivity.
Qed.

Lemma filter_connect_numbers (connect_filter : string) (f : DataFrame) :
  one_column f "Connect" -> all_numbers f "Connect" ->
  filter_connect connect_filter f =
  OK (narrow (keeps_connect (columns f) connect_filter) f).
Proof.
  intros H1 Hn.
  destruct (filter_connect connect_filter f) as [f'|e] eqn:E.
  - f_equal. now apply filter_connect_inv.
  - exfalso. revert E. unfold filter_connect, series_or.
    rewrite (getitem_series _ _ H1). cbn [bind].
    rewrite mapM_gt_zero_numbers.
    + destruct (String.eqb connect_filter "Connected"); [discriminate|].
      destruct (String.eqb connect_filter "Not Connected"); discriminate.
    + apply Forall_forall. intros c Hc. apply in_map_iff in Hc as (r & <- & Hr).
      now apply Hn.
Qed.

Lemma narrow_swap (p q : nat * list cell -> bool) (f : DataFrame) :
  narrow q (narrow p f) = narrow p (narrow q f).
Proof. unfold narrow. cbn [columns rows]. now rewrite filter_swap. Qed.

Lemma run_steps_permutation (df : DataFrame) (e : exn)
  (l l' : list (DataFrame -> result DataFrame)) :
  Permutation l l' -> Forall (uniform_on df e) l ->
  forall f, columns f = columns df -> incl (rows f) (rows df) ->
            run_steps l f = run_steps l' f.
Proof.
  induction 1 as [|x l l' Hp IH|x y l|l l' l'' Hp1 IH1 Hp2 IH2]; intros HF f Hc Hi.
  - reflexivity.
  - inversion HF as [|? ? Hx HF']; subst. cbn [run_steps].
    destruct Hx as [[p Hx]|Hx].
    + rewrite Hx by assumption. cbn [bind]. apply IH; auto.
      unfold narrow; cbn [rows]. intros r Hr. apply filter_In in Hr as [Hr _]. auto.
    + now rewrite Hx.
  - inversion HF as [|? ? Hy HF']; subst.
    inversion HF' as [|? ? Hx HF'']; subst. cbn [run_steps].
    assert (Hn : forall p, incl (rows (narrow p f)) (rows df)).
    { intros p r Hr. unfold narrow in Hr; cbn [rows] in Hr.
      apply filter_In in Hr as [Hr _]. auto. }
    destruct Hx as [[p Hx]|Hx], Hy as [[q Hy]|Hy].
    + rewrite Hx, Hy by assumption. cbn [bind].
      rewrite Hx, Hy by (auto; apply Hn). cbn [bind]. now rewrite narrow_swap.
    + rewrite Hx, Hy by assumption. cbn [bind]. rewrite Hy by auto. reflexivity.
    + rewrite Hx, Hy by assumption. cbn [bind]. rewrite Hx by auto. reflexivity.
    + rewrite Hx, Hy by assumption. reflexivity.
  - rewrite IH1 by assumption. apply IH2; auto.
    eapply Permutation_Forall; eauto.
Qed.

(** ** Properties of the filters and the totals *)

Section PipelineFacts.

Variable parse_float : string -> option Q.
Variable repr_float : Q -> string.

Lemma startup_inv (file : option Sheet) (r : Resolved) :
  startup parse_float repr_float file = OK r ->
  exists s,
    file = Some s /\
    load_data parse_float s = OK (frame r) /\
    find_col ["state"] (columns (frame r)) = Some (state_col r) /\
    find_col ["dpd"] (columns (frame r)) = Some (dpd_col r) /\
    one_column (frame r) (state_col r) /\
    one_column (frame r) (dpd_col r).
Proof.
  unfold startup. destruct file as [s|]; [|discriminate].
  destruct (load_data parse_float s) as [df|] eqn:L; cbn [bind]; [|discriminate].
  destruct (find_col ["state"] (columns df)) as [c1|] eqn:F1; [|discriminate].
  destruct (find_col ["dpd"] (columns df)) as [c2|] eqn:F2; [|discriminate].
  destruct (truthy (Some c1) && truthy (Some c2)); [|discriminate].
  unfold selectbox_options, series_or.
  destruct (getitem df c1) as [|xs1|] eqn:G1; cbn [bind]; try discriminate.
  destruct (getitem df c2) as [|xs2|] eqn:G2; cbn [bind]; try discriminate.
  intros H. injection H as <-. cbn [frame state_col dpd_col].
  apply getitem_series_inv in G1 as [G1 _].
  apply getitem_series_inv in G2 as [G2 _].
  exists s. auto 10.
Qed.

Lemma apply_filters_columns (df f : DataFrame) (sc dc state dpd cf : string) :
  apply_filters repr_float df sc dc state dpd cf = OK f ->
  columns f = columns df /\ exists p, rows f = filter p (rows df).
Proof.
  intros H. apply apply_filters_inv in H. subst f. unfold narrow. cbn [columns rows].
  split; [reflexivity | eauto].
Qed.

Lemma apply_filters_steps (df : DataFrame) (sc dc state dpd cf : string) :
  apply_filters repr_float df sc dc state dpd cf =
  run_steps [filter_equal repr_float sc state;
             filter_equal repr_float dc dpd;
             filter_connect cf] df.
Proof.
  unfold apply_filters. cbn [run_steps].
  destruct (filter_equal repr_float sc state df) as [f1|]; cbn [bind]; [|reflexivity].
  destruct (filter_equal repr_float dc dpd f1) as [f2|]; cbn [bind]; [|reflexivity].
  now rewrite bind_OK.
Qed.

(** C6: with the three selections at "All" the filtered table is the loaded
    table itself: same columns, same rows, same order. *)
Theorem apply_filters_all (df : DataFrame) (sc dc : string) :
  apply_filters repr_float df sc dc "All" "All" "All" = OK df.
Proof. reflexivity. Qed.

(** C9: the rows of the filtered table are rows of the loaded table, in the
    order of the loaded table, and no index label occurs twice: nothing is
    added, repeated or moved; the columns are those of the loaded table. *)
Theorem filtered_rows_subsequence (s : Sheet) (df f : DataFrame)
  (sc dc state dpd cf : string) :
  load_data parse_float s = OK df ->
  apply_filters repr_float df sc dc state dpd cf = OK f ->
  columns f = columns df /\
  subseq (rows f) (rows df) /\
  (forall r, In r (rows f) -> In r (rows df)) /\
  NoDup (map fst (rows df)) /\
  NoDup (map fst (rows f)).
Proof.
  intros L H. apply apply_filters_columns in H as (Hc & p & Hr).
  assert (Hs : subseq (rows f) (rows df)) by (rewrite Hr; apply subseq_filter).
  assert (Hn : NoDup (map fst (rows df)))
    by (rewrite (load_data_index parse_float s df L); apply seq_NoDup).
  repeat split; auto.
  - intros r. now apply subseq_in.
  - eapply subseq_nodup; [apply subseq_map; exact Hs | exact Hn].
Qed.

(** C10: when the selection leaves no row, the five integer totals are 0 and
    the three crore values equal 0, and none of the eight raises. *)
Theorem empty_selection_kpis (s : Sheet) (df f : DataFrame)
  (sc dc state dpd cf : string) :
  load_data parse_float s = OK df ->
  apply_filters repr_float df sc dc state dpd cf = OK f ->
  rows f = [] ->
  mapM (total f) total_kpis = OK [0; 0; 0; 0; 0]%Z /\
  exists c1 c2 c3,
    mapM (crore f) crore_kpis = OK [c1; c2; c3] /\
    py_eq c1 (PyInt 0) = true /\
    py_eq c2 (PyInt 0) = true /\
    py_eq c3 (PyInt 0) = true.
Proof.
  intros L H Hr. apply apply_filters_columns in H as (Hc & _).
  assert (U : forall col, In col numeric_cols ->
                          (count_occ string_dec (columns f) col <= 1)%nat).
  { intros col Hin. rewrite Hc. now apply (load_data_at_most_one parse_float s). }
  split.
  - unfold total_kpis. cbn [mapM].
    rewrite !total_empty by (try apply U; try assumption; cbv [numeric_cols In]; auto 20).
    reflexivity.
  - unfold crore_kpis. cbn [mapM].
    rewrite !crore_empty by (try apply U; try assumption; cbv [numeric_cols In]; auto 20).
    cbn [bind]. do 3 eexists. split; [reflexivity|].
    repeat split;
      match goal with |- py_eq (if ?b then _ else _) _ = true => now destruct b end.
Qed.

(** C7: on a table whose column "Connect" holds only numbers that are not
    negative, and for any region and bucket selection, the rows kept under
    "Connected" and the rows kept under "Not Connected" are the rows of the
    region-and-bucket selection with a positive, respectively a zero, connect
    count; no row is in both, and together they are exactly the rows of that
    selection. *)
Theorem connect_partition (df base : DataFrame) (sc dc state dpd : string) :
  connect_nonneg df ->
  apply_filters repr_float df sc dc state dpd "All" = OK base ->
  exists conn notc,
    apply_filters repr_float df sc dc state dpd "Connected" = OK conn /\
    apply_filters repr_float df sc dc state dpd "Not Connected" = OK notc /\
    rows conn =
      filter (fun r => is_positive (cell_of "Connect" (columns df) (snd r))) (rows base) /\
    rows notc =
      filter (fun r => eq_zero (cell_of "Connect" (columns df) (snd r))) (rows base) /\
    (forall r, In r (rows conn) -> ~ In r (rows notc)) /\
    (forall r, In r (rows base) <-> In r (rows conn) \/ In r (rows notc)) /\
    Permutation (rows base) (rows conn ++ rows notc).
Proof.
  intros [H1 Hq] H.
  destruct (apply_filters_columns _ _ _ _ _ _ _ H) as (Hc & p & Hr).
  assert (Hin : forall r, In r (rows base) -> In r (rows df)).
  { intros r Hin. rewrite Hr in Hin. now apply filter_In in Hin. }
  assert (H1b : one_column base "Connect") by (unfold one_column; now rewrite Hc).
  assert (Hnb : all_numbers base "Connect").
  { intros r Hr'. rewrite Hc. destruct (Hq r (Hin r Hr')) as (q & -> & _). eauto. }
  unfold apply_filters in *.
  destruct (filter_equal repr_float sc state df) as [f1|]; cbn [bind] in *; [|discriminate].
  destruct (filter_equal repr_float dc dpd f1) as [f2|]; cbn [bind] in *; [|discriminate].
  change (filter_connect "All" f2) with (OK f2) in H. injection H as ->.
  rewrite !filter_connect_numbers by assumption.
  do 2 eexists. split; [reflexivity|]. split; [reflexivity|].
  unfold narrow, keeps_connect. cbn [rows String.eqb Ascii.eqb Bool.eqb].
  rewrite Hc.
  set (pos := fun r : nat * list cell => is_positive (cell_of "Connect" (columns df) (snd r))).
  set (zer := fun r : nat * list cell => eq_zero (cell_of "Connect" (columns df) (snd r))).
  assert (Hcomp : forall r, In r (rows base) -> zer r = negb (pos r)).
  { intros r Hr'. unfold zer, pos. destruct (Hq r (Hin r Hr')) as (q & -> & Hpos).
    now apply nonneg_zero_or_positive. }
  split; [reflexivity|]. split; [reflexivity|]. split; [|split].
  - intros r Hp Hz. apply filter_In in Hp as [_ Hp]. apply filter_In in Hz as [_ Hz].
    apply positive_not_zero in Hp. unfold zer in Hz. congruence.
  - intros r. rewrite !filter_In. split.
    + intros Hr'. specialize (Hcomp r Hr'). destruct (pos r); [left | right]; split; auto.
    + intros [[Hr' _]|[Hr' _]]; assumption.
  - now apply filter_partition.
Qed.

Lemma filter_equal_uniform (df : DataFrame) (e : exn) (col selected : string) :
  one_column df col -> uniform_on df e (filter_equal repr_float col selected).
Proof.
  intros H. left. exists (keeps_equal repr_float (columns df) col selected).
  intros f Hc _. rewrite <- Hc. apply filter_equal_ok.
  unfold one_column in *. now rewrite Hc.
Qed.

Lemma filter_connect_uniform (s : Sheet) (df : DataFrame) (cf : string) :
  load_data parse_float s = OK df ->
  uniform_on df (KeyError "Connect") (filter_connect cf).
Proof.
  intros L. destruct (selects_connect cf) eqn:S.
  - destruct (has_column df "Connect") eqn:Hc.
    + left. exists (keeps_connect (columns df) cf). intros f Hcf Hi.
      apply has_column_in in Hc.
      assert (Hl : In "Connect" numeric_cols) by (cbv [numeric_cols In]; auto 20).
      rewrite <- Hcf. apply filter_connect_numbers.
      * unfold one_column. rewrite Hcf.
        now apply (load_data_one_column parse_float s).
      * intros r Hr. rewrite Hcf.
        now apply (load_data_numbers parse_float s df "Connect" L Hl Hc), Hi.
    + right. intros f Hcf. apply filter_connect_absent; [assumption|].
      unfold has_column in *. now rewrite Hcf.
  - left. exists (fun _ => true). intros f _ _.
    rewrite filter_connect_unselected by assumption.
    unfold narrow. rewrite filter_all. now destruct f.
Qed.

(** C8: on the table as the script holds it when the filters run, the three
    filter steps give the same outcome in every order: the same filtered
    table, or the same exception where the connect step finds no column
    "Connect". *)
Theorem filters_commute (file : option Sheet) (r : Resolved)
  (state dpd cf : string) (order : list (DataFrame -> result DataFrame)) :
  startup parse_float repr_float file = OK r ->
  Permutation order
    [filter_equal repr_float (state_col r) state;
     filter_equal repr_float (dpd_col r) dpd;
     filter_connect cf] ->
  run_steps order (frame r) =
  apply_filters repr_float (frame r) (state_col r) (dpd_col r) state dpd cf.
Proof.
  intros H Hp. apply startup_inv in H as (s & _ & L & _ & _ & Us & Ud).
  rewrite apply_filters_steps. symmetry.
  apply (run_steps_permutation (frame r) (KeyError "Connect")).
  - now apply Permutation_sym.
  - apply Forall_cons; [now apply filter_equal_uniform|].
    apply Forall_cons; [now apply filter_equal_uniform|].
    apply Forall_cons; [now apply (filter_connect_uniform s) | apply Forall_nil].
  - reflexivity.
  - apply incl_refl.
Qed.

End PipelineFacts.

(** ** The crore values, whatever the number library computes *)

Lemma numbers_not_text (f : DataFrame) (col : string) :
  all_numbers f col ->
  forallb not_text (map (fun r => cell_of col (columns f) (snd r)) (rows f)) = true.
Proof.
  intros Hn. apply forallb_forall. intros c Hc.
  apply in_map_iff in Hc as (r & <- & Hr). destruct (Hn r Hr) as [q ->]. reflexivity.
Qed.

Section CroreFacts.

Variable parse_float : string -> option Q.
Variable repr_float : Q -> string.
Variable number : Type.
Variable lib_sum : Sheet -> string -> list (nat * list cell) -> number.
Variable lib_div : number -> number.
Variable lib_round : number -> number.


End CroreFacts.

(** The exact reading [crore] is [crore_lib] where the library adds, divides
    and rounds without error. *)
Lemma crore_exact_reading (parse_float : string -> option Q) (repr_float : Q -> string)
  (s : Sheet) (df f : DataFrame) (sc dc state dpd cf col : string) :
  load_data parse_float s = OK df ->
  apply_filters repr_float df sc dc state dpd cf = OK f ->
  In col crore_kpis ->
  crore f col =
  match crore_lib Q exact_sum (fun x => x / one_e7) (fun x => py_round x 2) s f col with
  | OK KZero => OK (PyInt 0)
  | OK (KNumber x) => OK (PyFloat x)
  | Raise e => Raise e
  end.
Proof.
  intros L H Hin. apply crore_kpis_listed in Hin.
  apply (apply_filters_columns repr_float) in H as (Hc & p & Hr).
  unfold crore, crore_lib. destruct (has_column f col) eqn:Hcol; [|reflexivity].
  apply has_column_in in Hcol. rewrite Hc in Hcol.
  pose proof (load_data_one_column parse_float s df col L Hin Hcol) as H1.
  pose proof (load_data_numbers parse_float s df col L Hin Hcol) as Hn.
  assert (Hnf : all_numbers f col).
  { intros r Hin'. rewrite Hc. apply Hn. rewrite Hr in Hin'. now apply filter_In in Hin'. }
  unfold series_or. rewrite getitem_series by (unfold one_column; now rewrite Hc).
  cbn [bind]. rewrite (numbers_not_text f col Hnf), series_sum_numbers by assumption.
  cbn [bind]. unfold exact_sum.
  apply load_data_inv in L as (_ & <- & _). now rewrite Hc.
Qed.

(** ** The properties at the sample workbook *)

(** Region "MH" and connected loans: one row of the four is left. *)
Lemma filtered_rows_subsequence_witness :
  columns sample_connected = columns sample_frame /\
  subseq (rows sample_connected) (rows sample_frame) /\
  (forall r, In r (rows sample_connected) -> In r (rows sample_frame)) /\
  NoDup (map fst (rows sample_frame)) /\
  NoDup (map fst (rows sample_connected)).
Proof.
  apply (filtered_rows_subsequence sample_parse sample_repr sample_sheet
           sample_frame sample_connected "State" "DPD Bucket" "MH" "All" "Connected");
    vm_compute; reflexivity.
Defined.

(** A region that no row has: every total is zero. *)
Lemma empty_selection_kpis_witness :
  mapM (total sample_nothing) total_kpis = OK [0; 0; 0; 0; 0]%Z /\
  exists c1 c2 c3,
    mapM (crore sample_nothing) crore_kpis = OK [c1; c2; c3] /\
    py_eq c1 (PyInt 0) = true /\
    py_eq c2 (PyInt 0) = true /\
    py_eq c3 (PyInt 0) = true.
Proof.
  apply (empty_selection_kpis sample_parse sample_repr sample_sheet
           sample_frame sample_nothing "State" "DPD Bucket" "Goa" "All" "All");
    vm_compute; reflexivity.
Defined.


(** The scenario of the specification: two "MH" rows of one and two crore give
    a collection total of 3.0, and an absent column gives 0. *)
Example crore_sample_region :
  crore sample_region "Collection Amount" = OK (PyFloat 3) /\
  crore sample_region "Total Default Amount" = OK (PyInt 0) /\
  state_summary sample_region "State" =
    OK [(CStr "MH", [30000000; 50000000], [3.0000000; 5.0000000])].
Proof. repeat split; vm_compute; reflexivity. Qed.

(** The two "MH" rows split into one connected and one not connected. *)
Lemma connect_partition_witness :
  exists conn notc,
    apply_filters sample_repr sample_frame "State" "DPD Bucket" "MH" "All" "Connected"
      = OK conn /\
    apply_filters sample_repr sample_frame "State" "DPD Bucket" "MH" "All" "Not Connected"
      = OK notc /\
    rows conn =
      filter (fun r => is_positive (cell_of "Connect" (columns sample_frame) (snd r)))
             (rows sample_region) /\
    rows notc =
      filter (fun r => eq_zero (cell_of "Connect" (columns sample_frame) (snd r)))
             (rows sample_region) /\
    (forall r, In r (rows conn) -> ~ In r (rows notc)) /\
    (forall r, In r (rows sample_region) <-> In r (rows conn) \/ In r (rows notc)) /\
    Permutation (rows sample_region) (rows conn ++ rows notc).
Proof.
  apply (connect_partition sample_repr sample_frame sample_region
           "State" "DPD Bucket" "MH" "All").
  - split; [vm_compute; reflexivity|].
    intros r Hr. cbn [rows sample_frame In] in Hr.
    destruct Hr as [<-|[<-|[<-|[<-|[]]]]]; eexists;
      (split; [vm_compute; reflexivity | unfold Qle; simpl; lia]).
  - vm_compute; reflexivity.
Defined.

(** The connect step first, then region, then bucket. *)
Lemma filters_commute_witness :
  run_steps [filter_connect "Connected";
             filter_equal sample_repr "State" "MH";
             filter_equal sample_repr "DPD Bucket" "All"] sample_frame =
  apply_filters sample_repr sample_frame "State" "DPD Bucket" "MH" "All" "Connected".
Proof.
  apply (filters_commute sample_parse sample_repr (Some sample_sheet) sample_resolved
           "MH" "All" "Connected").
  - vm_compute; reflexivity.
  - apply (Permutation_cons_append
             [filter_equal sample_repr "State" "MH";
              filter_equal sample_repr "DPD Bucket" "All"]
             (filter_connect "Connected")).
Defined.


(** ** An absent column *)

(** Whatever the selection, the page is not shown for a table without the
    column "Collection Amount". *)
Lemma render_without_collection_amount (repr_float : Q -> string) (r : Resolved)
  (state dpd cf : string) :
  has_column (frame r) "Collection Amount" = false ->
  exists e, render repr_float r state dpd cf = Raise e.
Proof.
  intros Hc. unfold render.
  destruct (apply_filters repr_float (frame r) (state_col r) (dpd_col r) state dpd cf)
    as [f|e] eqn:F; cbn [bind]; [|eauto].
  apply apply_filters_columns in F as (Hcols & _).
  destruct (mapM (total f) total_kpis) as [ts|e]; cbn [bind]; [|eauto].
  destruct (mapM (crore f) crore_kpis) as [cs|e]; cbn [bind]; [|eauto].
  unfold state_summary, groupby_sum.
  destruct (series_or TypeError f (state_col r)) as [keys|e]; cbn [bind]; [|eauto].
  apply has_column_false in Hc. rewrite <- Hcols in Hc.
  cbn [mapM]. unfold series_or at 1. unfold getitem. rewrite Hc. cbn [bind]. eauto.
Qed.

(** C2 (the code at the failing inputs): on a workbook without the column
    "Collection Amount" the crore total of that column is 0 and the five
    integer totals are computed, yet the page as a whole ends with the
    KeyError that the grouped sum raises; on a workbook without the column
    "Connect" the selection "Connected" ends the page with a KeyError, while
    the selection "All" shows it. *)
Theorem absent_column_aborts (parse_float : string -> option Q) (repr_float : Q -> string) :
  startup parse_float repr_float (Some no_amounts_sheet) =
    OK (mkResolved no_amounts_frame "State" "DPD Bucket"
          ["All"; "MH"; "UP"] ["All"; "0-30"; "31-60"]) /\
  crore no_amounts_frame "Collection Amount" = OK (PyInt 0) /\
  mapM (total no_amounts_frame) total_kpis = OK [19; 0; 1; 0; 0]%Z /\
  dashboard parse_float repr_float (Some no_amounts_sheet) "All" "All" "All" =
    Raise (KeyError "Collection Amount") /\
  dashboard parse_float repr_float (Some no_connect_sheet) "All" "All" "Connected" =
    Raise (KeyError "Connect") /\
  exists page,
    dashboard parse_float repr_float (Some no_connect_sheet) "All" "All" "All" = OK page.
Proof.
  repeat split; try (vm_compute; reflexivity).
  eexists. vm_compute. reflexivity.
Qed.

(** * Further properties of the script *)

(** ** The loader: outcome, untouched columns, labels *)

(** X1: a loaded table never has two columns with the same listed numeric
    label: where two stripped labels of the parsed table are the same listed
    label, the loader ends with the TypeError that [pd.to_numeric] raises on a
    frame instead of returning. *)
Theorem load_data_listed_labels (parse_float : string -> option Q) (s : Sheet) :
  (forall df, load_data parse_float s = OK df ->
              forall col, In col numeric_cols ->
                          (count_occ string_dec (columns df) col <= 1)%nat) /\
  ((exists col, In col numeric_cols /\
                (2 <= count_occ string_dec (map Str.strip (header s)) col)%nat) ->
   load_data parse_float s = Raise TypeError).
Proof.
  split.
  - intros df L col Hin. now apply (load_data_at_most_one parse_float s).
  - intros (col & Hin & Hc). rewrite load_data_eq. cbv zeta.
    destruct (labels_unique numeric_cols (map Str.strip (header s))) eqn:E;
      [|reflexivity].
    unfold labels_unique in E. rewrite forallb_forall in E.
    specialize (E col Hin). apply Nat.leb_le in E. lia.
Qed.

(** A sheet whose labels "Connect" and " Connect" become one label. *)
Lemma load_data_listed_labels_witness :
  load_data sample_parse twice_connect_sheet = Raise TypeError.
Proof.
  apply (proj2 (load_data_listed_labels sample_parse twice_connect_sheet)).
  exists "Connect". split; [cbv [numeric_cols In]; auto 20 | vm_compute; lia].
Defined.

(** X2: a column whose label is not in the numeric list comes out of the loader
    as [pd.read_excel] parsed it, cell by cell, each row at its place. *)
Theorem load_data_other_columns (parse_float : string -> option Q)
  (s : Sheet) (df : DataFrame) (col : string) :
  load_data parse_float s = OK df ->
  ~ In col numeric_cols ->
  forall i raw,
    nth_error (body s) i = Some raw ->
    exists row,
      nth_error (rows df) i = Some (i, row) /\
      cell_of col (columns df) row =
      cell_of col (columns df) (fit (length (header s)) raw).
Proof.
  intros H Hn i raw Hraw.
  destruct (load_data_inv parse_float s df H) as (_ & Hcols & Hrows).
  exists (load_row parse_float numeric_cols (columns df) (fit (length (header s)) raw)).
  split.
  - rewrite Hrows.
    erewrite map_nth_error; [|apply enumerate_nth, map_nth_error; exact Hraw].
    reflexivity.
  - rewrite cell_of_load_row by (now rewrite fit_length, Hcols, length_map).
    replace (existsb (String.eqb col) numeric_cols) with false; [reflexivity|].
    symmetry. apply not_true_iff_false. intros E.
    apply existsb_exists in E as (x & Hx & Heq).
    apply String.eqb_eq in Heq. subst x. contradiction.
Qed.

Lemma load_data_other_columns_witness :
  exists row,
    nth_error (rows sample_frame) 1 = Some (1%nat, row) /\
    cell_of "DPD Bucket" (columns sample_frame) row =
    cell_of "DPD Bucket" (columns sample_frame)
      (fit (length (header sample_sheet))
         [CStr "MH"; CStr "31-60"; CNum 0; CNum 20000000; CStr "n/a"]).
Proof.
  apply (load_data_other_columns sample_parse sample_sheet sample_frame "DPD Bucket").
  - vm_compute; reflexivity.
  - cbv [numeric_cols In]. intros H.
    repeat (destruct H as [H|H]; [discriminate H|]). exact H.
  - reflexivity.
Defined.

Lemma lstrip_start (s : string) : starts_with_space (Str.lstrip s) = false.
Proof.
  induction s as [|a s IH]; [reflexivity|]. cbn [Str.lstrip].
  destruct (Str.is_space a) eqn:E; [exact IH | cbn [starts_with_space]; exact E].
Qed.

Lemma rstrip_end (s : string) : ends_with_space (Str.rstrip s) = false.
Proof.
  induction s as [|a s IH]; [reflexivity|]. cbn [Str.rstrip].
  destruct (Str.rstrip s) as [|b r] eqn:E.
  - destruct (Str.is_space a) eqn:Ea; [reflexivity | cbn [ends_with_space]; exact Ea].
  - exact IH.
Qed.

Lemma rstrip_start (s : string) :
  starts_with_space s = false -> starts_with_space (Str.rstrip s) = false.
Proof.
  destruct s as [|a s]; [reflexivity|]. cbn [Str.rstrip starts_with_space]. intros Ha.
  destruct (Str.rstrip s); [now rewrite Ha | exact Ha].
Qed.

Lemma lstrip_fixed (s : string) : starts_with_space s = false -> Str.lstrip s = s.
Proof. destruct s as [|a s]; [reflexivity|]. cbn. now intros ->. Qed.

Lemma rstrip_fixed (s : string) : ends_with_space s = false -> Str.rstrip s = s.
Proof.
  induction s as [|a s IH]; [reflexivity|]. cbn [Str.rstrip ends_with_space].
  destruct s as [|b s'].
  - cbn. now intros ->.
  - intros H. rewrite (IH H). reflexivity.
Qed.

Lemma strip_clean (s : string) :
  starts_with_space (Str.strip s) = false /\
  ends_with_space (Str.strip s) = false /\
  Str.strip (Str.strip s) = Str.strip s.
Proof.
  assert (H1 : starts_with_space (Str.strip s) = false)
    by (apply rstrip_start, lstrip_start).
  assert (H2 : ends_with_space (Str.strip s) = false) by apply rstrip_end.
  repeat split; try assumption.
  unfold Str.strip at 1. rewrite (lstrip_fixed _ H1). now apply rstrip_fixed.
Qed.

(** X3: no label of a loaded table begins or ends with white space, so
    stripping a label again changes nothing. *)
Theorem load_data_labels_stripped (parse_float : string -> option Q)
  (s : Sheet) (df : DataFrame) (c : string) :
  load_data parse_float s = OK df ->
  In c (columns df) ->
  starts_with_space c = false /\ ends_with_space c = false /\ Str.strip c = c.
Proof.
  intros H Hc. apply load_data_inv in H as (_ & Hcols & _).
  rewrite Hcols in Hc. apply in_map_iff in Hc as (h & <- & _).
  apply strip_clean.
Qed.

Lemma load_data_labels_stripped_witness :
  starts_with_space "State" = false /\ ends_with_space "State" = false /\
  Str.strip "State" = "State".
Proof.
  apply (load_data_labels_stripped sample_parse sample_sheet sample_frame "State").
  - vm_compute; reflexivity.
  - simpl; tauto.
Defined.

(** ** Start-up: how it ends, what the select boxes offer *)



Lemma unique_in (l : list string) (v : string) : In v (unique l) <-> In v l.
Proof.
  induction l as [|x t IH]; [tauto|]. cbn [unique In].
  rewrite filter_In, IH. split.
  - intros [H|[H _]]; auto.
  - intros [H|H]; [now left|].
    destruct (String.eqb v x) eqn:E.
    + apply String.eqb_eq in E. left. congruence.
    + right. split; [assumption | reflexivity].
Qed.

Lemma unique_nodup (l : list string) : NoDup (unique l).
Proof.
  induction l as [|x t IH]; cbn [unique]; constructor.
  - rewrite filter_In. intros [_ H]. cbv beta in H. now rewrite String.eqb_refl in H.
  - now apply NoDup_filter.
Qed.

Lemma insert_sorted_in (x v : string) (l : list string) :
  In v (insert_sorted x l) <-> v = x \/ In v l.
Proof.
  induction l as [|y t IH]; cbn [insert_sorted In]; [intuition|].
  destruct (String.leb x y); cbn [In]; [intuition | rewrite IH; intuition].
Qed.

Lemma insert_sorted_nodup (x : string) (l : list string) :
  ~ In x l -> NoDup l -> NoDup (insert_sorted x l).
Proof.
  induction l as [|y t IH]; cbn [insert_sorted]; intros Hx Hl.
  - constructor; [intros [] | constructor].
  - destruct (String.leb x y); [now constructor|].
    inversion Hl as [|? ? Hy Ht]; subst. constructor.
    + rewrite insert_sorted_in. intros [->|H]; [apply Hx; now left | contradiction].
    + apply IH; [intros H; apply Hx; now right | assumption].
Qed.

Lemma insert_sorted_sorted (x : string) (l : list string) :
  Sorted (fun a b => String.leb a b = true) l ->
  Sorted (fun a b => String.leb a b = true) (insert_sorted x l).
Proof.
  induction l as [|y t IH]; cbn [insert_sorted]; intros Hl.
  - repeat constructor.
  - destruct (String.leb x y) eqn:E.
    + constructor; [assumption | now constructor].
    + assert (Hyx : String.leb y x = true)
        by (destruct (String.leb_total x y) as [H|H]; congruence).
      apply Sorted_inv in Hl as [Ht Hhd]. constructor; [now apply IH|].
      destruct t as [|z t']; cbn [insert_sorted].
      * now constructor.
      * destruct (String.leb x z); constructor; [assumption|].
        now inversion Hhd.
Qed.

Lemma sorted_in (l : list string) (v : string) : In v (sorted l) <-> In v l.
Proof.
  induction l as [|x t IH]; [tauto|]. unfold sorted in *. cbn [fold_right In].
  rewrite insert_sorted_in, IH. intuition.
Qed.

Lemma sorted_nodup (l : list string) : NoDup l -> NoDup (sorted l).
Proof.
  induction 1 as [|x t Hx Ht IH]; unfold sorted in *; cbn [fold_right]; [constructor|].
  apply insert_sorted_nodup; [|assumption].
  intros H. apply Hx. now apply (sorted_in t x).
Qed.

Lemma sorted_sorted (l : list string) :
  Sorted (fun a b => String.leb a b = true) (sorted l).
Proof.
  induction l as [|x t IH]; unfold sorted in *; cbn [fold_right]; [constructor|].
  now apply insert_sorted_sorted.
Qed.

Section StartupFacts.

Variable parse_float : string -> option Q.
Variable repr_float : Q -> string.

Lemma selectbox_options_offers (df : DataFrame) (col : string) (o : list string) :
  selectbox_options repr_float df col = OK o ->
  one_column df col /\ offers o (column_texts repr_float df col).
Proof.
  unfold selectbox_options, series_or.
  destruct (getitem df col) as [|xs|] eqn:G; cbn [bind]; try discriminate.
  apply getitem_series_inv in G as [H1 ->]. intros H. injection H as <-.
  split; [assumption|]. rewrite map_map.
  exists (sorted (unique (column_texts repr_float df col))).
  split; [reflexivity|]. split; [apply sorted_sorted|].
  split; [apply sorted_nodup, unique_nodup|].
  intros v. now rewrite sorted_in, unique_in.
Qed.


Lemma startup_inv_options (file : option Sheet) (r : Resolved) :
  startup parse_float repr_float file = OK r ->
  selectbox_options repr_float (frame r) (state_col r) = OK (state_options r) /\
  selectbox_options repr_float (frame r) (dpd_col r) = OK (dpd_options r).
Proof.
  unfold startup. destruct file as [s|]; [|discriminate].
  destruct (load_data parse_float s) as [df|]; cbn [bind]; [|discriminate].
  destruct (find_col ["state"] (columns df)) as [c1|]; [|discriminate].
  destruct (find_col ["dpd"] (columns df)) as [c2|]; [|discriminate].
  destruct (truthy (Some c1) && truthy (Some c2)); [|discriminate].
  destruct (selectbox_options repr_float df c1) as [o1|] eqn:O1; cbn [bind]; [|discriminate].
  destruct (selectbox_options repr_float df c2) as [o2|] eqn:O2; cbn [bind]; [|discriminate].
  intros H. injection H as <-. cbn [frame state_col dpd_col state_options dpd_options].
  auto.
Qed.

(** X5: the two select boxes offer "All" first and then the texts of the
    region column, respectively of the bucket column, each once and in
    ascending order. *)
Theorem startup_options (file : option Sheet) (r : Resolved) :
  startup parse_float repr_float file = OK r ->
  offers (state_options r) (column_texts repr_float (frame r) (state_col r)) /\
  offers (dpd_options r) (column_texts repr_float (frame r) (dpd_col r)).
Proof.
  intros H. apply startup_inv_options in H as [O1 O2].
  split; [now apply (selectbox_options_offers _ _ _ O1)
         | now apply (selectbox_options_offers _ _ _ O2)].
Qed.

End StartupFacts.

Lemma startup_options_witness :
  offers (state_options sample_resolved)
         (column_texts sample_repr (frame sample_resolved) (state_col sample_resolved)) /\
  offers (dpd_options sample_resolved)
         (column_texts sample_repr (frame sample_resolved) (dpd_col sample_resolved)).
Proof.
  apply (startup_options sample_parse sample_repr (Some sample_sheet) sample_resolved).
  vm_compute; reflexivity.
Defined.

(** The scenario of the specification: headers "Area" and "Days" give no
    region and no bucket column, and the script stops. *)
Example startup_area_days :
  startup sample_parse sample_repr (Some area_days_sheet) =
  Raise (Stop "State / DPD column not found in Excel").
Proof. vm_compute; reflexivity. Qed.

(** ** The filters: which rows stay, when they raise, running them again *)

Lemma is_positive_iff (c : cell) :
  is_positive c = true <-> exists q, c = CNum q /\ 0 < q.
Proof.
  destruct c as [s|q|]; cbn [is_positive].
  - split; [discriminate | intros (q & H & _); discriminate H].
  - rewrite negb_true_iff, <- not_true_iff_false, Qle_bool_iff. split.
    + intros H. exists q. split; [reflexivity | now apply Qnot_le_lt].
    + intros (q' & [= <-] & H). now apply Qlt_not_le.
  - split; [discriminate | intros (q & H & _); discriminate H].
Qed.

Lemma eq_zero_iff (c : cell) :
  eq_zero c = true <-> exists q, c = CNum q /\ q == 0.
Proof.
  destruct c as [s|q|]; cbn [eq_zero].
  - split; [discriminate | intros (q & H & _); discriminate H].
  - rewrite Qeq_bool_iff. split.
    + intros H. now exists q.
    + now intros (q' & [= <-] & H).
  - split; [discriminate | intros (q & H & _); discriminate H].
Qed.

Lemma mapM_gt_zero_text_free (xs : list cell) (mask : list bool) :
  mapM gt_zero xs = OK mask -> Forall (fun c => forall s, c <> CStr s) xs.
Proof.
  revert mask; induction xs as [|c xs IH]; intros mask; [constructor|].
  cbn [mapM]. destruct c as [s|q|]; cbn [gt_zero bind]; [discriminate| |];
    destruct (mapM gt_zero xs) as [m|] eqn:E; cbn [bind]; try discriminate;
    intros _; constructor; try discriminate; eapply IH; reflexivity.
Qed.

Lemma mapM_gt_zero_of_text_free (xs : list cell) :
  Forall (fun c => forall s, c <> CStr s) xs ->
  mapM gt_zero xs = OK (map is_positive xs).
Proof.
  induction 1 as [|c xs Hc _ IH]; [reflexivity|]. cbn [mapM map].
  destruct c as [s|q|]; [now destruct (Hc s)| |]; cbn [gt_zero bind]; now rewrite IH.
Qed.

Lemma narrow_narrow (p q : nat * list cell -> bool) (f : DataFrame) :
  narrow q (narrow p f) = narrow (fun r => p r && q r) f.
Proof. unfold narrow. cbn [columns rows]. now rewrite filter_and. Qed.

Section FilterRows.

Variable repr_float : Q -> string.

(** X6: a row is in the filtered table exactly when it is a row of the table
    that passes the three tests: its region text is the selected region unless
    "All" is selected, likewise its bucket text, and its connect count is a
    positive number under "Connected", a zero under "Not Connected". *)
Theorem apply_filters_rows (df f : DataFrame) (sc dc state dpd cf : string) :
  apply_filters repr_float df sc dc state dpd cf = OK f ->
  columns f = columns df /\
  forall r,
    In r (rows f) <->
    In r (rows df) /\
    (state = "All" \/ astype_str repr_float (cell_of sc (columns df) (snd r)) = state) /\
    (dpd = "All" \/ astype_str repr_float (cell_of dc (columns df) (snd r)) = dpd) /\
    (cf = "Connected" ->
     exists q, cell_of "Connect" (columns df) (snd r) = CNum q /\ 0 < q) /\
    (cf = "Not Connected" ->
     exists q, cell_of "Connect" (columns df) (snd r) = CNum q /\ q == 0).
Proof.
  intros H. apply apply_filters_inv in H. subst f. unfold narrow. cbn [columns rows].
  split; [reflexivity|]. intros r.
  rewrite filter_In, !andb_true_iff. unfold keeps_equal, keeps_connect.
  rewrite !orb_true_iff, !String.eqb_eq.
  assert (HC :
    (if String.eqb cf "Connected"
     then is_positive (cell_of "Connect" (columns df) (snd r))
     else if String.eqb cf "Not Connected"
          then eq_zero (cell_of "Connect" (columns df) (snd r)) else true) = true <->
    (cf = "Connected" ->
     exists q, cell_of "Connect" (columns df) (snd r) = CNum q /\ 0 < q) /\
    (cf = "Not Connected" ->
     exists q, cell_of "Connect" (columns df) (snd r) = CNum q /\ q == 0)).
  { destruct (String.eqb cf "Connected") eqn:E1.
    - apply String.eqb_eq in E1. subst cf. rewrite is_positive_iff.
      split; [intros H; split; [auto | discriminate] | intros [H _]; auto].
    - apply String.eqb_neq in E1.
      destruct (String.eqb cf "Not Connected") eqn:E2.
      + apply String.eqb_eq in E2. subst cf. rewrite eq_zero_iff.
        split; [intros H; split; [discriminate | auto] | intros [_ H]; auto].
      + apply String.eqb_neq in E2. split; [intros _; split; contradiction | reflexivity]. }
  rewrite HC. tauto.
Qed.

Lemma filter_equal_again (col selected : string) (df f1 g : DataFrame) :
  filter_equal repr_float col selected df = OK f1 ->
  columns g = columns df ->
  filter_equal repr_float col selected g =
  OK (narrow (keeps_equal repr_float (columns df) col selected) g).
Proof.
  intros H Hg. unfold filter_equal in H.
  destruct (String.eqb selected "All") eqn:E.
  - unfold filter_equal, narrow, keeps_equal. rewrite E. cbn [orb].
    rewrite filter_all. now destruct g.
  - unfold series_or in H.
    destruct (getitem df col) as [|xs|] eqn:G; cbn [bind] in H; try discriminate.
    apply getitem_series_inv in G as [H1 _]. rewrite <- Hg.
    apply filter_equal_ok. unfold one_column in *. now rewrite Hg.
Qed.

Lemma filter_connect_again (cf : string) (f2 f g : DataFrame) :
  filter_connect cf f2 = OK f ->
  columns g = columns f2 -> incl (rows g) (rows f2) ->
  filter_connect cf g = OK (narrow (keeps_connect (columns f2) cf) g).
Proof.
  intros H Hg Hi.
  assert (G : forall xs, getitem f2 "Connect" = Series xs ->
                         getitem g "Connect" =
                         Series (map (fun r => cell_of "Connect" (columns f2) (snd r)) (rows g))).
  { intros xs Hx. apply getitem_series_inv in Hx as [H1 _].
    rewrite <- Hg. apply getitem_series. unfold one_column in *. now rewrite Hg. }
  unfold filter_connect in *. unfold narrow, keeps_connect.
  destruct (String.eqb cf "Connected") eqn:E1;
    [|destruct (String.eqb cf "Not Connected") eqn:E2].
  - unfold series_or in *.
    destruct (getitem f2 "Connect") as [|xs|] eqn:Gx; cbn [bind] in H; try discriminate.
    rewrite (G xs eq_refl). cbn [bind].
    destruct (mapM gt_zero xs) as [mask|] eqn:M; cbn [bind] in H; [|discriminate].
    apply mapM_gt_zero_text_free in M.
    apply getitem_series_inv in Gx as [_ ->].
    rewrite mapM_gt_zero_of_text_free.
    + cbn [bind]. unfold take. now rewrite map_map, boolean_index_map, Hg.
    + apply Forall_forall. intros c Hc. apply in_map_iff in Hc as (r & <- & Hr).
      rewrite Forall_forall in M. apply M.
      apply (in_map (fun r => cell_of "Connect" (columns f2) (snd r))). now apply Hi.
  - unfold series_or in *.
    destruct (getitem f2 "Connect") as [|xs|] eqn:Gx; cbn [bind] in H; try discriminate.
    rewrite (G xs eq_refl). cbn [bind].
    unfold take. now rewrite map_map, boolean_index_map, Hg.
  - rewrite filter_all. now destruct g.
Qed.

(** X8: running the three filters again on the filtered table, with the same
    selections, returns the filtered table: the filters are idempotent. *)
Theorem apply_filters_idempotent (df f : DataFrame) (sc dc state dpd cf : string) :
  apply_filters repr_float df sc dc state dpd cf = OK f ->
  apply_filters repr_float f sc dc state dpd cf = OK f.
Proof.
  intros H. pose proof (apply_filters_inv _ _ _ _ _ _ _ _ H) as Hf.
  unfold apply_filters in H.
  destruct (filter_equal repr_float sc state df) as [f1|] eqn:E1; cbn [bind] in H; [|discriminate].
  destruct (filter_equal repr_float dc dpd f1) as [f2|] eqn:E2; cbn [bind] in H; [|discriminate].
  pose proof (filter_equal_inv _ _ _ _ _ E1) as H1.
  pose proof (filter_equal_inv _ _ _ _ _ E2) as H2.
  assert (C1 : columns f1 = columns df) by (now subst f1).
  assert (C2 : columns f2 = columns df) by (subst f2; cbn [narrow columns]; assumption).
  assert (Cf : columns f = columns df) by (now subst f).
  unfold apply_filters.
  rewrite (filter_equal_again sc state df f1 f E1 Cf). cbn [bind].
  rewrite (filter_equal_again dc dpd f1 f2 _ E2) by (cbn [narrow columns]; congruence).
  cbn [bind].
  rewrite (filter_connect_again cf f2 f _ H).
  - rewrite C1, C2, !narrow_narrow. f_equal. rewrite Hf at 2. rewrite Hf at 1.
    rewrite narrow_narrow. unfold narrow. cbn [columns rows]. f_equal.
    apply filter_ext. intros r.
    destruct (keeps_equal repr_float (columns df) sc state r),
             (keeps_equal repr_float (columns df) dc dpd r),
             (keeps_connect (columns df) cf r); reflexivity.
  - cbn [narrow columns]. congruence.
  - intros r Hr. unfold narrow in Hr. cbn [rows] in Hr.
    apply filter_In in Hr as [Hr _]. apply filter_In in Hr as [Hr _].
    apply filter_connect_inv in H. rewrite H in Hr. unfold narrow in Hr. cbn [rows] in Hr.
    now apply filter_In in Hr.
Qed.

End FilterRows.

Section FilterOutcomes.

Variable parse_float : string -> option Q.
Variable repr_float : Q -> string.

(** X7: every row can be reached from the region select box: the text of its
    region is among the choices, and unless that text is "All" itself, choosing
    it keeps the row and keeps only rows of that region. *)
Theorem every_region_selectable (file : option Sheet) (r : Resolved)
  (row : nat * list cell) :
  startup parse_float repr_float file = OK r ->
  In row (rows (frame r)) ->
  In (astype_str repr_float (cell_of (state_col r) (columns (frame r)) (snd row)))
     (state_options r) /\
  (astype_str repr_float (cell_of (state_col r) (columns (frame r)) (snd row)) <> "All" ->
   exists f,
     apply_filters repr_float (frame r) (state_col r) (dpd_col r)
       (astype_str repr_float (cell_of (state_col r) (columns (frame r)) (snd row)))
       "All" "All" = OK f /\
     In row (rows f) /\
     forall row', In row' (rows f) ->
       astype_str repr_float (cell_of (state_col r) (columns (frame r)) (snd row')) =
       astype_str repr_float (cell_of (state_col r) (columns (frame r)) (snd row))).
Proof.
  intros H Hrow.
  set (v := astype_str repr_float (cell_of (state_col r) (columns (frame r)) (snd row))).
  pose proof (startup_inv_options parse_float repr_float file r H) as [O1 _].
  apply selectbox_options_offers in O1 as (U1 & l & -> & _ & _ & Hl).
  split.
  - right. apply Hl. unfold column_texts. apply in_map_iff. now exists row.
  - intros Hv.
    exists (narrow (keeps_equal repr_float (columns (frame r)) (state_col r) v) (frame r)).
    assert (E : String.eqb v "All" = false) by now apply String.eqb_neq.
    split; [|split].
    + unfold apply_filters. rewrite filter_equal_ok by assumption. reflexivity.
    + unfold narrow. cbn [rows]. apply filter_In. split; [assumption|].
      unfold keeps_equal. fold v. rewrite String.eqb_refl. apply orb_true_r.
    + intros row' Hr'. unfold narrow in Hr'. cbn [rows] in Hr'.
      apply filter_In in Hr' as [_ Hk]. unfold keeps_equal in Hk.
      rewrite E in Hk. cbn [orb] in Hk. now apply String.eqb_eq in Hk.
Qed.

(** X9: on the table the script holds after start-up the filters raise in one
    case only: the connect selection is "Connected" or "Not Connected" and
    the table has no column "Connect"; the exception is then the KeyError of
    that label.  In every other case they return a table. *)
Theorem apply_filters_outcome (file : option Sheet) (r : Resolved)
  (state dpd cf : string) :
  startup parse_float repr_float file = OK r ->
  (selects_connect cf = true /\ has_column (frame r) "Connect" = false /\
   apply_filters repr_float (frame r) (state_col r) (dpd_col r) state dpd cf =
     Raise (KeyError "Connect")) \/
  ((selects_connect cf = false \/ has_column (frame r) "Connect" = true) /\
   exists f,
     apply_filters repr_float (frame r) (state_col r) (dpd_col r) state dpd cf = OK f).
Proof.
  intros H. apply startup_inv in H as (s & _ & L & _ & _ & Us & Ud).
  unfold apply_filters. rewrite filter_equal_ok by assumption. cbn [bind].
  rewrite filter_equal_ok by (unfold one_column, narrow in *; assumption). cbn [bind].
  set (f2 := narrow _ (narrow _ (frame r))).
  assert (C2 : columns f2 = columns (frame r)) by reflexivity.
  assert (I2 : incl (rows f2) (rows (frame r))).
  { intros x Hx. unfold f2, narrow in Hx. cbn [rows] in Hx.
    apply filter_In in Hx as [Hx _]. now apply filter_In in Hx. }
  destruct (selects_connect cf) eqn:S.
  - destruct (has_column (frame r) "Connect") eqn:Hc.
    + right. split; [now right|]. eexists. apply filter_connect_numbers.
      * unfold one_column. rewrite C2.
        apply (load_data_one_column parse_float s); auto.
        -- cbv [numeric_cols In]; auto 20.
        -- now apply has_column_in.
      * intros x Hx. rewrite C2.
        apply (load_data_numbers parse_float s (frame r) "Connect" L); auto.
        -- cbv [numeric_cols In]; auto 20.
        -- now apply has_column_in.
    + left. repeat split; auto. apply filter_connect_absent; [assumption|].
      unfold has_column in *. now rewrite C2.
  - right. split; [now left|]. exists f2. now apply filter_connect_unselected.
Qed.

End FilterOutcomes.

Lemma apply_filters_rows_witness :
  columns sample_connected = columns sample_frame /\
  forall r,
    In r (rows sample_connected) <->
    In r (rows sample_frame) /\
    ("MH" = "All" \/
     astype_str sample_repr (cell_of "State" (columns sample_frame) (snd r)) = "MH") /\
    ("All" = "All" \/
     astype_str sample_repr (cell_of "DPD Bucket" (columns sample_frame) (snd r)) = "All") /\
    ("Connected" = "Connected" ->
     exists q, cell_of "Connect" (columns sample_frame) (snd r) = CNum q /\ 0 < q) /\
    ("Connected" = "Not Connected" ->
     exists q, cell_of "Connect" (columns sample_frame) (snd r) = CNum q /\ q == 0).
Proof.
  apply (apply_filters_rows sample_repr sample_frame sample_connected
           "State" "DPD Bucket" "MH" "All" "Connected").
  vm_compute; reflexivity.
Defined.

Lemma apply_filters_idempotent_witness :
  apply_filters sample_repr sample_connected "State" "DPD Bucket" "MH" "All" "Connected"
  = OK sample_connected.
Proof.
  apply (apply_filters_idempotent sample_repr sample_frame sample_connected).
  vm_compute; reflexivity.
Defined.

Lemma every_region_selectable_witness :
  In "UP" (state_options sample_resolved) /\
  ("UP" <> "All" ->
   exists f,
     apply_filters sample_repr sample_frame "State" "DPD Bucket" "UP" "All" "All" = OK f /\
     In (2%nat, [CStr "UP"; CStr "0-30"; CNum 2; CNum 0; CNum (-5)]) (rows f) /\
     forall row', In row' (rows f) ->
       astype_str sample_repr (cell_of "State" (columns sample_frame) (snd row')) = "UP").
Proof.
  apply (every_region_selectable sample_parse sample_repr (Some sample_sheet)
           sample_resolved (2%nat, [CStr "UP"; CStr "0-30"; CNum 2; CNum 0; CNum (-5)])).
  - vm_compute; reflexivity.
  - simpl; tauto.
Defined.

Lemma apply_filters_outcome_witness :
  (selects_connect "Connected" = true /\
   has_column sample_frame "Connect" = false /\
   apply_filters sample_repr sample_frame "State" "DPD Bucket" "UP" "All" "Connected" =
     Raise (KeyError "Connect")) \/
  ((selects_connect "Connected" = false \/ has_column sample_frame "Connect" = true) /\
   exists f,
     apply_filters sample_repr sample_frame "State" "DPD Bucket" "UP" "All" "Connected"
     = OK f).
Proof.
  apply (apply_filters_outcome sample_parse sample_repr (Some sample_sheet)
           sample_resolved "UP" "All" "Connected").
  vm_compute; reflexivity.
Defined.

(** ** The grouped sums and the page *)

Lemma mapM_keys {A : Type} (h : cell -> result A) (ks : list cell)
  (t : list (cell * A)) :
  mapM (fun k => x <- h k ;; OK (k, x)) ks = OK t -> map fst t = ks.
Proof.
  revert t; induction ks as [|k ks IH]; intros t; cbn [mapM].
  - intros H. injection H as <-. reflexivity.
  - destruct (h k) as [x|]; cbn [bind]; [|discriminate].
    destruct (mapM (fun k0 => x0 <- h k0 ;; OK (k0, x0)) ks) as [t'|] eqn:E;
      cbn [bind]; [|discriminate].
    intros H. injection H as <-. cbn [map fst]. f_equal. now apply IH.
Qed.

Lemma groupby_sum_keys (f : DataFrame) (by_col : string) (cols : list string)
  (t : list (cell * list Q)) :
  groupby_sum f by_col cols = OK t -> map fst t = group_keys (key_cells f by_col).
Proof.
  unfold groupby_sum, series_or at 1.
  destruct (getitem f by_col) as [|xs|] eqn:G; cbn [bind]; try discriminate.
  apply getitem_series_inv in G as [_ ->]. fold (key_cells f by_col).
  destruct (mapM (series_or TypeError f) cols) as [vals|]; cbn [bind]; [|discriminate].
  apply mapM_keys.
Qed.

Lemma groupby_sum_missing (f : DataFrame) (by_col : string) (pre post : list string)
  (col : string) :
  one_column f by_col ->
  (forall c, In c pre -> one_column f c) ->
  has_column f col = false ->
  groupby_sum f by_col (pre ++ col :: post) = Raise (KeyError col).
Proof.
  intros Hb Hpre Hc. unfold groupby_sum, series_or at 1.
  rewrite (getitem_series _ _ Hb). cbn [bind].
  replace (mapM (series_or TypeError f) (pre ++ col :: post))
    with (@Raise (list (list cell)) (KeyError col)); [reflexivity|].
  symmetry. induction pre as [|c pre IH]; cbn [app mapM].
  - unfold series_or, getitem. apply has_column_false in Hc. now rewrite Hc.
  - unfold series_or at 1. rewrite (getitem_series _ _ (Hpre c (or_introl eq_refl))).
    cbn [bind]. rewrite IH by (intros c' Hc'; apply Hpre; now right). reflexivity.
Qed.

Section PageFacts.

Variable parse_float : string -> option Q.
Variable repr_float : Q -> string.

Lemma listed_column (s : Sheet) (df f : DataFrame) (col : string) :
  load_data parse_float s = OK df ->
  columns f = columns df -> incl (rows f) (rows df) ->
  In col numeric_cols -> has_column f col = true ->
  one_column f col /\ all_numbers f col.
Proof.
  intros L Hc Hi Hin Hcol. apply has_column_in in Hcol. rewrite Hc in Hcol. split.
  - unfold one_column. rewrite Hc. now apply (load_data_one_column parse_float s).
  - intros r Hr. rewrite Hc.
    now apply (load_data_numbers parse_float s df col L Hin Hcol), Hi.
Qed.

Lemma filtered_frame (df f : DataFrame) (sc dc state dpd cf : string) :
  apply_filters repr_float df sc dc state dpd cf = OK f ->
  columns f = columns df /\ incl (rows f) (rows df).
Proof.
  intros H. apply apply_filters_columns in H as (Hc & p & Hr). split; [assumption|].
  intros r Hin. rewrite Hr in Hin. now apply filter_In in Hin.
Qed.

Lemma render_inv (r : Resolved) (state dpd cf : string) (page : Dashboard) :
  render repr_float r state dpd cf = OK page ->
  exists f,
    apply_filters repr_float (frame r) (state_col r) (dpd_col r) state dpd cf = OK f /\
    table page = f /\
    total_records page = length (rows f) /\
    mapM (total f) total_kpis = OK (totals page) /\
    mapM (crore f) crore_kpis = OK (crores page) /\
    state_summary f (state_col r) = OK (state_chart page) /\
    dpd_summary f (dpd_col r) = OK (dpd_chart page).
Proof.
  unfold render.
  destruct (apply_filters repr_float (frame r) (state_col r) (dpd_col r) state dpd cf)
    as [f|] eqn:F; cbn [bind]; [|discriminate].
  destruct (mapM (total f) total_kpis) as [ts|] eqn:T; cbn [bind]; [|discriminate].
  destruct (mapM (crore f) crore_kpis) as [cs|] eqn:C; cbn [bind]; [|discriminate].
  destruct (state_summary f (state_col r)) as [ss|] eqn:S; cbn [bind]; [|discriminate].
  destruct (dpd_summary f (dpd_col r)) as [ds|] eqn:D; cbn [bind]; [|discriminate].
  intros H. injection H as <-. exists f.
  cbn [table total_records totals crores state_chart dpd_chart]. auto 10.
Qed.

Lemma summary_needs_amounts (s : Sheet) (df f : DataFrame) (sc : string)
  (chart : list (cell * list Q * list Q)) :
  load_data parse_float s = OK df ->
  columns f = columns df -> incl (rows f) (rows df) ->
  one_column f sc ->
  state_summary f sc = OK chart ->
  has_column f "Collection Amount" = true /\
  has_column f "Principal Outstanding" = true.
Proof.
  intros L Hc Hi Us S. unfold state_summary in S.
  assert (NC : In "Collection Amount" numeric_cols) by (cbv [numeric_cols In]; auto 20).
  assert (HC : has_column f "Collection Amount" = true).
  { destruct (has_column f "Collection Amount") eqn:E; [reflexivity|]. exfalso.
    pose proof (groupby_sum_missing f sc [] ["Principal Outstanding"]
                  "Collection Amount" Us ltac:(intros ? []) E) as E'.
    cbn [app] in E'. rewrite E' in S. discriminate S. }
  split; [assumption|].
  destruct (has_column f "Principal Outstanding") eqn:E; [reflexivity|]. exfalso.
  assert (E' : groupby_sum f sc (["Collection Amount"] ++ ["Principal Outstanding"])
               = Raise (KeyError "Principal Outstanding")).
  { apply groupby_sum_missing; [assumption| |assumption].
    intros c [<-|[]]. now apply (listed_column s df). }
  cbn [app] in E'. rewrite E' in S. discriminate S.
Qed.


End PageFacts.


(** ** The groups of a chart *)

Lemma cell_eqb_sym (a b : cell) : cell_eqb a b = cell_eqb b a.
Proof.
  destruct a as [s|p|], b as [t|q|]; cbn [cell_eqb]; try reflexivity.
  - apply String.eqb_sym.
  - destruct (Qeq_bool p q) eqn:E1, (Qeq_bool q p) eqn:E2; try reflexivity.
    + apply Qeq_bool_iff in E1. rewrite <- not_true_iff_false, Qeq_bool_iff in E2.
      exfalso. apply E2. now symmetry.
    + apply Qeq_bool_iff in E2. rewrite <- not_true_iff_false, Qeq_bool_iff in E1.
      exfalso. apply E1. now symmetry.
Qed.

Lemma cell_eqb_trans (a b c : cell) :
  cell_eqb a b = true -> cell_eqb b c = true -> cell_eqb a c = true.
Proof.
  destruct a as [s|p|], b as [t|q|], c as [u|w|]; cbn [cell_eqb]; try discriminate.
  - rewrite !String.eqb_eq. congruence.
  - rewrite !Qeq_bool_iff. intros H1 H2. now rewrite H1.
Qed.

Lemma cell_eqb_refl (c : cell) : notna c = true -> cell_eqb c c = true.
Proof.
  destruct c as [s|q|]; cbn [cell_eqb notna]; try discriminate; intros _.
  - apply String.eqb_refl.
  - apply Qeq_bool_iff. reflexivity.
Qed.

Lemma filter_none {A : Type} (p : A -> bool) (l : list A) :
  (forall x, In x l -> p x = false) -> filter p l = [].
Proof.
  induction l as [|a l IH]; intros H; [reflexivity|]. cbn [filter].
  rewrite (H a (or_introl eq_refl)). apply IH. intros x Hx. apply H. now right.
Qed.

Lemma unique_keys_in (l : list cell) (k : cell) : In k (unique_keys l) -> In k l.
Proof.
  induction l as [|x t IH]; [tauto|]. cbn [unique_keys In].
  intros [H|H]; [now left|]. apply filter_In in H as [H _]. right. now apply IH.
Qed.

Lemma unique_keys_count (l : list cell) (c : cell) :
  length (filter (cell_eqb c) (unique_keys l)) =
  if existsb (cell_eqb c) l then 1%nat else 0%nat.
Proof.
  induction l as [|x t IH]; [reflexivity|]. cbn [unique_keys filter existsb].
  rewrite filter_and. destruct (cell_eqb c x) eqn:E; cbn [orb length].
  - rewrite filter_none; [reflexivity|].
    intros y _. destruct (cell_eqb c y) eqn:Ey; [|apply andb_false_r].
    rewrite cell_eqb_sym in Ey. now rewrite (cell_eqb_trans y c x Ey E).
  - rewrite <- IH. f_equal. apply filter_ext. intros y.
    destruct (cell_eqb c y) eqn:Ey; [|apply andb_false_r].
    destruct (cell_eqb y x) eqn:Eyx; [|reflexivity].
    rewrite (cell_eqb_trans c y x Ey Eyx) in E. discriminate E.
Qed.

Lemma insert_key_count (p : cell -> bool) (k : cell) (l : list cell) :
  length (filter p (insert_key k l)) = length (filter p (k :: l)).
Proof.
  induction l as [|y t IH]; [reflexivity|]. cbn [insert_key].
  destruct (cell_leb k y); [reflexivity|]. cbn [filter] in *.
  destruct (p y), (p k); cbn [length] in *; rewrite IH; reflexivity.
Qed.

Lemma insert_key_in (k x : cell) (l : list cell) :
  In x (insert_key k l) <-> x = k \/ In x l.
Proof.
  induction l as [|y t IH]; cbn [insert_key In]; [intuition|].
  destruct (cell_leb k y); cbn [In]; [intuition | rewrite IH; intuition].
Qed.

Lemma group_keys_count (keys : list cell) (c : cell) :
  In c keys ->
  length (filter (cell_eqb c) (group_keys keys)) = if notna c then 1%nat else 0%nat.
Proof.
  intros Hin. unfold group_keys.
  assert (S : forall l, length (filter (cell_eqb c) (fold_right insert_key [] l)) =
                        length (filter (cell_eqb c) l)).
  { induction l as [|x t IH]; [reflexivity|]. cbn [fold_right].
    rewrite insert_key_count. cbn [filter]. destruct (cell_eqb c x); cbn [length]; now rewrite IH. }
  rewrite S, unique_keys_count.
  destruct (notna c) eqn:N.
  - replace (existsb (cell_eqb c) (filter notna keys)) with true; [reflexivity|].
    symmetry. apply existsb_exists. exists c. split; [|now apply cell_eqb_refl].
    apply filter_In. auto.
  - destruct c; try discriminate N.
    replace (existsb (cell_eqb CNaN) (filter notna keys)) with false; [reflexivity|].
    symmetry. apply not_true_iff_false. intros H.
    apply existsb_exists in H as (x & _ & Hx). discriminate Hx.
Qed.

Lemma group_keys_in (keys : list cell) (k : cell) :
  In k (group_keys keys) -> In k keys /\ notna k = true.
Proof.
  unfold group_keys.
  assert (S : forall l, In k (fold_right insert_key [] l) -> In k l).
  { induction l as [|x t IH]; [tauto|]. cbn [fold_right In].
    rewrite insert_key_in. intros [->|H]; [now left | right; now apply IH]. }
  intros H. apply S, unique_keys_in, filter_In in H. exact H.
Qed.

Lemma filter_map_length {A B : Type} (p : B -> bool) (h : A -> B) (l : list A) :
  length (filter (fun x => p (h x)) l) = length (filter p (map h l)).
Proof.
  induction l as [|a l IH]; [reflexivity|]. cbn [map filter].
  destruct (p (h a)); cbn [length]; now rewrite IH.
Qed.

Section ChartFacts.

Variable parse_float : string -> option Q.
Variable repr_float : Q -> string.

(** X14: in the region chart every filtered row whose region cell is not empty
    has its region on exactly one chart row; a row whose region cell is empty
    is on none; and every chart row is the region of some filtered row. *)
Theorem state_summary_regions (f : DataFrame) (sc : string)
  (chart : list (cell * list Q * list Q)) :
  state_summary f sc = OK chart ->
  (forall row, In row (rows f) ->
     length (filter (fun g => cell_eqb (cell_of sc (columns f) (snd row)) (fst (fst g)))
                    chart) =
     if notna (cell_of sc (columns f) (snd row)) then 1%nat else 0%nat) /\
  (forall g, In g chart ->
     notna (fst (fst g)) = true /\
     exists row, In row (rows f) /\ cell_of sc (columns f) (snd row) = fst (fst g)).
Proof.
  unfold state_summary.
  destruct (groupby_sum f sc ["Collection Amount"; "Principal Outstanding"])
    as [t|] eqn:E; cbn [bind]; [|discriminate].
  intros H. injection H as <-. apply groupby_sum_keys in E.
  assert (K : map (fun g : cell * list Q * list Q => fst (fst g)) (with_crore t) =
              group_keys (key_cells f sc)).
  { rewrite <- E. unfold with_crore. rewrite map_map. reflexivity. }
  split.
  - intros row Hrow.
    rewrite (filter_map_length (cell_eqb (cell_of sc (columns f) (snd row)))
               (fun g : cell * list Q * list Q => fst (fst g))), K.
    apply group_keys_count. unfold key_cells.
    apply (in_map (fun r => cell_of sc (columns f) (snd r))). exact Hrow.
  - intros g Hg.
    assert (Hk : In (fst (fst g)) (group_keys (key_cells f sc))).
    { rewrite <- K. apply (in_map (fun g : cell * list Q * list Q => fst (fst g))). exact Hg. }
    apply group_keys_in in Hk as [Hk Hn]. split; [assumption|].
    unfold key_cells in Hk. apply in_map_iff in Hk as (row & Hrow & Hin). now exists row.
Qed.

End ChartFacts.

Lemma state_summary_regions_witness :
  (forall row, In row (rows sample_frame) ->
     length (filter (fun g => cell_eqb (cell_of "State" (columns sample_frame) (snd row))
                                       (fst (fst g)))
               [(CStr "MH", [30000000; 50000000], [3.0000000; 5.0000000]);
                (CStr "UP", [0; -5], [0.0000000; -0.0000005])]) =
     if notna (cell_of "State" (columns sample_frame) (snd row)) then 1%nat else 0%nat) /\
  (forall g,
     In g [(CStr "MH", [30000000; 50000000], [3.0000000; 5.0000000]);
           (CStr "UP", [0; -5], [0.0000000; -0.0000005])] ->
     notna (fst (fst g)) = true /\
     exists row, In row (rows sample_frame) /\
                 cell_of "State" (columns sample_frame) (snd row) = fst (fst g)).
Proof.
  apply (state_summary_regions sample_frame "State").
  vm_compute; reflexivity.
Defined.

(** ** The resolver and capital letters *)

Lemma lower_char_not_upper (c : ascii) : is_upper (Str.lower_char c) = false.
Proof. destruct c as [[] [] [] [] [] [] [] []]; reflexivity. Qed.

Lemma lower_char_idempotent (c : ascii) :
  Str.lower_char (Str.lower_char c) = Str.lower_char c.
Proof. destruct c as [[] [] [] [] [] [] [] []]; reflexivity. Qed.

Lemma lower_not_upper (s : string) : has_upper (Str.lower s) = false.
Proof.
  induction s as [|c s IH]; [reflexivity|]. cbn [Str.lower has_upper].
  now rewrite lower_char_not_upper, IH.
Qed.

Lemma lower_idempotent (s : string) : Str.lower (Str.lower s) = Str.lower s.
Proof.
  induction s as [|c s IH]; [reflexivity|]. cbn [Str.lower].
  now rewrite lower_char_idempotent, IH.
Qed.

Lemma has_upper_app (a b : string) :
  has_upper (a ++ b)%string = has_upper a || has_upper b.
Proof.
  induction a as [|c a IH]; [reflexivity|]. cbn [append has_upper].
  now rewrite IH, orb_assoc.
Qed.

(** X16: a keyword that holds a capital letter matches no column, since the
    headers are lowered before the comparison and the keyword is not: with
    only such keywords the resolver finds nothing, whatever the headers. *)
Theorem find_col_capital_keywords (keys cols : list string) :
  (forall k, In k keys -> has_upper k = true) ->
  find_col keys cols = None.
Proof.
  intros H. apply find_col_none. intros c _ (k & Hk & a & b & Hsub).
  pose proof (lower_not_upper c) as Hl. rewrite Hsub, !has_upper_app in Hl.
  rewrite (H k Hk), orb_true_r in Hl. discriminate Hl.
Qed.

Lemma find_col_capital_keywords_witness :
  find_col ["State"; "DPD"] ["State"; "DPD Bucket"] = None.
Proof.
  apply find_col_capital_keywords.
  intros k [<-|[<-|[]]]; reflexivity.
Defined.

Lemma scan_keys_lower (c : string) (keys : list string) :
  scan_keys (Str.lower c) keys = option_map Str.lower (scan_keys c keys).
Proof.
  induction keys as [|k ks IH]; [reflexivity|]. cbn [scan_keys].
  rewrite lower_idempotent. destruct (Str.contains k (Str.lower c)); [reflexivity | exact IH].
Qed.

(** X17: the resolver reads the headers through their lowered form only:
    on the lowered headers it chooses the lowered form of the column it
    chooses on the headers as they are, and finds nothing on the ones exactly
    when it finds nothing on the others. *)
Theorem find_col_lowered_headers (keys cols : list string) :
  find_col keys (map Str.lower cols) = option_map Str.lower (find_col keys cols).
Proof.
  induction cols as [|c cs IH]; [reflexivity|]. cbn [map find_col].
  rewrite scan_keys_lower. destruct (scan_keys c keys); [reflexivity | exact IH].
Qed.

(** ** When the page is shown *)

Section Shown.

Variable parse_float : string -> option Q.
Variable repr_float : Q -> string.

Lemma started_filters (s : Sheet) (r : Resolved) (state dpd cf : string) :
  load_data parse_float s = OK (frame r) ->
  one_column (frame r) (state_col r) -> one_column (frame r) (dpd_col r) ->
  apply_filters repr_float (frame r) (state_col r) (dpd_col r) state dpd cf =
  if selects_connect cf && negb (has_column (frame r) "Connect")
  then Raise (KeyError "Connect")
  else OK (narrow (keeps_connect (columns (frame r)) cf)
             (narrow (keeps_equal repr_float (columns (frame r)) (dpd_col r) dpd)
                (narrow (keeps_equal repr_float (columns (frame r)) (state_col r) state)
                   (frame r)))).
Proof.
  intros L Us Ud.
  unfold apply_filters. rewrite filter_equal_ok by assumption. cbn [bind].
  rewrite filter_equal_ok by (unfold one_column, narrow in *; assumption). cbn [bind].
  cbn [narrow columns].
  set (f2 := narrow _ (narrow _ (frame r))).
  assert (C2 : columns f2 = columns (frame r)) by reflexivity.
  assert (I2 : incl (rows f2) (rows (frame r))).
  { intros x Hx. unfold f2, narrow in Hx. cbn [rows] in Hx.
    apply filter_In in Hx as [Hx _]. now apply filter_In in Hx. }
  assert (NC : In "Connect" numeric_cols) by (cbv [numeric_cols In]; auto 20).
  destruct (selects_connect cf) eqn:S; cbn [andb].
  - destruct (has_column (frame r) "Connect") eqn:Hc; cbn [negb].
    + rewrite <- C2. apply filter_connect_numbers;
        apply (listed_column parse_float s (frame r) f2 "Connect"); auto.
    + apply filter_connect_absent; [assumption|]. unfold has_column in *. now rewrite C2.
  - rewrite filter_connect_unselected by assumption.
    f_equal. unfold narrow, keeps_connect. cbn [columns rows].
    unfold selects_connect in S. apply orb_false_iff in S as [-> ->].
    rewrite filter_all. reflexivity.
Qed.

(** X18: the script shows the page only if start-up has returned, the connect
    selection is "All" or the table has the column "Connect", and the table has
    both "Collection Amount" and "Principal Outstanding": on a table that
    lacks an amount column, or that lacks "Connect" under a connect
    selection, no selection of the sidebar gets the page shown. *)
Theorem dashboard_shown_only_if (file : option Sheet) (state dpd cf : string)
  (page : Dashboard) :
  dashboard parse_float repr_float file state dpd cf = OK page ->
  exists r,
    startup parse_float repr_float file = OK r /\
    (selects_connect cf = false \/ has_column (frame r) "Connect" = true) /\
    has_column (frame r) "Collection Amount" = true /\
    has_column (frame r) "Principal Outstanding" = true.
Proof.
  unfold dashboard.
  destruct (startup parse_float repr_float file) as [r|e] eqn:St; cbn [bind];
    [|discriminate].
  intros R. exists r. split; [reflexivity|].
  destruct (startup_inv parse_float repr_float file r St) as (s & _ & L & _ & _ & Us & Ud).
  pose proof (started_filters s r state dpd cf L Us Ud) as F.
  apply render_inv in R as (f & Hf & _ & _ & _ & _ & S & _).
  destruct (filtered_frame repr_float _ _ _ _ _ _ _ Hf) as [Hc Hi].
  assert (Us' : one_column f (state_col r)) by (unfold one_column in *; now rewrite Hc).
  destruct (summary_needs_amounts parse_float s (frame r) f (state_col r) _ L Hc Hi Us' S)
    as [HC HP].
  assert (HH : forall col, has_column f col = has_column (frame r) col)
    by (intros col; unfold has_column; now rewrite Hc).
  rewrite HH in HC, HP. split; [|auto].
  destruct (selects_connect cf) eqn:B; [|now left]. right.
  destruct (has_column (frame r) "Connect") eqn:E; [reflexivity|].
  cbn [andb negb] in F. rewrite F in Hf. discriminate Hf.
Qed.

End Shown.

Lemma dashboard_shown_only_if_witness :
  exists r,
    startup sample_parse sample_repr (Some sample_sheet) = OK r /\
    (selects_connect "Connected" = false \/ has_column (frame r) "Connect" = true) /\
    has_column (frame r) "Collection Amount" = true /\
    has_column (frame r) "Principal Outstanding" = true.
Proof.
  apply (dashboard_shown_only_if sample_parse sample_repr (Some sample_sheet)
           "MH" "All" "Connected" sample_connected_page).
  vm_compute; reflexivity.
Defined.
